(** * viadot: HubspotToDF (tasks/hubspot.py) and Mindful (sources/mindful.py)

    A shallow embedding of the filter normaliser, the cursor detector, the
    page-fetch loops of [HubspotToDF.run] and the time-window code of
    [Mindful.__init__], with the properties of the specification that can
    be stated over them. *)

From Stdlib Require Import ZArith Lia Bool Ascii String List.
From stdpp Require Import base tactics option list strings gmap.

Set Warnings "-register-all".
Local Open Scope string_scope.
Local Open Scope Z_scope.

(** ** Python values

    The values that filters and decoded JSON bodies are made of.  A [dict]
    keeps its insertion order (an association list whose keys are the JSON
    member names); a [str] is its sequence of characters, taken from the
    code points below U+0100, where the only decimal digits are the ASCII
    ones. *)

Inductive pyval : Type :=
  | PNone
  | PBool (b : bool)
  | PInt (z : Z)
  | PStr (s : string)
  | PList (l : list pyval)
  | PDict (d : list (string * pyval)).

(** The exception classes that the modelled code can raise. *)
Inductive exn : Type :=
  | TypeError | KeyError | IndexError | ValueError | AttributeError
  | OverflowError | NotImplementedError | NameError
  | CredentialError | ValidationError | APIError.

Inductive result (A : Type) : Type :=
  | Ok (a : A)
  | Err (e : exn).
Arguments Ok {A} a.
Arguments Err {A} e.

Definition rbind {A B} (r : result A) (k : A -> result B) : result B :=
  match r with Ok a => k a | Err e => Err e end.

(** ** A state-and-exception monad

    [M St A] is a computation over a mutable state [St] that returns an [A]
    or raises; the state reached when the exception is raised is kept, as
    it is for a Python object mutated before a [raise]. *)

Definition M (St A : Type) : Type := St -> result A * St.

Definition ret {St A} (a : A) : M St A := fun s => (Ok a, s).
Definition raise {St A} (e : exn) : M St A := fun s => (Err e, s).
Definition bind {St A B} (m : M St A) (k : A -> M St B) : M St B :=
  fun s => match m s with
           | (Ok a, s') => k a s'
           | (Err e, s') => (Err e, s')
           end.
Definition get {St} : M St St := fun s => (Ok s, s).
Definition put {St} (s : St) : M St unit := fun _ => (Ok tt, s).
Definition lift {St A} (r : result A) : M St A := fun s => (r, s).

(** [try: m  except: pass] *)
Definition try_except_pass {St} (m : M St unit) : M St unit :=
  fun s => match m s with
           | (Ok _, s') => (Ok tt, s')
           | (Err _, s') => (Ok tt, s')
           end.

Notation "x <- m ;; k" := (bind m (fun x => k))
  (at level 100, m at next level, right associativity).
Notation "m ;;; k" := (bind m (fun _ => k))
  (at level 100, right associativity).

(** [for k in range(start, start + count): body k] *)
Fixpoint for_range {St} (start count : nat) (body : nat -> M St unit) : M St unit :=
  match count with
  | O => ret tt
  | S c => body start ;;; for_range (S start) c body
  end.

(** ** Python operations on values *)

Definition dict_get {A} (k : string) (d : list (string * A)) : option A :=
  snd <$> List.find (fun kv => String.eqb (fst kv) k) d.

(** [d[k] = v] on the entries of a dict: the value of an existing key is
    replaced where it stands, a new key is appended. *)
Fixpoint dict_set {A} (k : string) (v : A) (d : list (string * A)) : list (string * A) :=
  match d with
  | [] => [(k, v)]
  | (k', v') :: d' =>
      if String.eqb k' k then (k', v) :: d' else (k', v') :: dict_set k v d'
  end.

(** The characters of a [str], each one a [str] of length one. *)
Fixpoint str_chars (s : string) : list pyval :=
  match s with
  | EmptyString => []
  | String c s' => PStr (String c EmptyString) :: str_chars s'
  end.

(** An index as Python normalises it: negative indices count from the end. *)
Definition norm_index (len : nat) (z : Z) : option nat :=
  let z' := if z <? 0 then z + Z.of_nat len else z in
  if (0 <=? z') && (z' <? Z.of_nat len) then Some (Z.to_nat z') else None.

Definition seq_getitem (l : list pyval) (key : pyval) : result pyval :=
  match key with
  | PInt z =>
      match norm_index (length l) z with
      | Some i => match l !! i with Some v => Ok v | None => Err IndexError end
      | None => Err IndexError
      end
  | PBool b =>
      match l !! (if b then 1%nat else 0%nat) with
      | Some v => Ok v
      | None => Err IndexError
      end
  | _ => Err TypeError
  end.

(** [c[key]] *)
Definition py_getitem (c key : pyval) : result pyval :=
  match c with
  | PDict d =>
      match key with
      | PStr k => match dict_get k d with Some v => Ok v | None => Err KeyError end
      | PList _ | PDict _ => Err TypeError        (* unhashable key *)
      | _ => Err KeyError                         (* the keys are strings *)
      end
  | PList l => seq_getitem l key
  | PStr s => seq_getitem (str_chars s) key
  | _ => Err TypeError
  end.

(** [c[key] = v], giving the new content of the object [c].  A dict is
    only ever given string keys by the code modelled here. *)
Definition py_setitem (c key v : pyval) : result pyval :=
  match c with
  | PDict d =>
      match key with
      | PStr k => Ok (PDict (dict_set k v d))
      | _ => Err TypeError
      end
  | PList l =>
      match key with
      | PInt z =>
          match norm_index (length l) z with
          | Some i => Ok (PList (<[i:=v]> l))
          | None => Err IndexError
          end
      | PBool b =>
          let i := if b then 1%nat else 0%nat in
          if (i <? length l)%nat then Ok (PList (<[i:=v]> l)) else Err IndexError
      | _ => Err TypeError
      end
  | _ => Err TypeError
  end.

(** [len(c)] *)
Definition py_len (c : pyval) : result nat :=
  match c with
  | PList l => Ok (length l)
  | PDict d => Ok (length d)
  | PStr s => Ok (String.length s)
  | _ => Err TypeError
  end.

(** The items that iterating over [c] yields: the elements of a list, the
    keys of a dict, the characters of a str. *)
Definition py_iter (c : pyval) : result (list pyval) :=
  match c with
  | PList l => Ok l
  | PDict d => Ok ((fun kv => PStr (fst kv)) <$> d)
  | PStr s => Ok (str_chars s)
  | _ => Err TypeError
  end.

(** Truth value of an object, as [if v] and [v and ...] test it. *)
Definition py_truthy (v : pyval) : bool :=
  match v with
  | PNone => false
  | PBool b => b
  | PInt z => negb (z =? 0)
  | PStr s => negb (String.eqb s "")
  | PList l => negb (Nat.eqb (length l) 0)
  | PDict d => negb (Nat.eqb (length d) 0)
  end.

(** [a == b]: [bool] compares as the integers 0 and 1, lists compare
    element by element, dicts compare as CPython's [dict_equal] does (same
    size, and every entry of [a] has an equal value under its key in [b]). *)
Fixpoint py_eq (a b : pyval) : bool :=
  match a, b with
  | PNone, PNone => true
  | PBool x, PBool y => Bool.eqb x y
  | PBool x, PInt y => Z.b2z x =? y
  | PInt x, PBool y => x =? Z.b2z y
  | PInt x, PInt y => x =? y
  | PStr x, PStr y => String.eqb x y
  | PList x, PList y =>
      (fix go (x y : list pyval) : bool :=
         match x, y with
         | [], [] => true
         | u :: x', w :: y' => py_eq u w && go x' y'
         | _, _ => false
         end) x y
  | PDict x, PDict y =>
      Nat.eqb (length x) (length y) &&
      (fix go (x : list (string * pyval)) : bool :=
         match x with
         | [] => true
         | (k, u) :: x' =>
             match dict_get k y with
             | Some w => py_eq u w
             | None => false
             end && go x'
         end) x
  | _, _ => false
  end.

(** [l.index(item)] for the element [item] that sits at position [i] of
    [l]: the first position whose element is that very object or compares
    equal to it. *)
Fixpoint list_index_from (l : list pyval) (j i : nat) (item : pyval) : result nat :=
  match l with
  | [] => Err ValueError
  | el :: l' =>
      if Nat.eqb j i || py_eq el item then Ok j
      else list_index_from l' (S j) i item
  end.

Definition list_index (c : pyval) (i : nat) (item : pyval) : result nat :=
  match c with
  | PList l => list_index_from l 0 i item
  | _ => Err AttributeError
  end.

(** ** Calendar dates ([datetime.date], [datetime.datetime.strptime])

    [date.fromisoformat] is the one of CPython 3.7 to 3.10, the versions the
    project supports: exactly ten characters, [YYYY-MM-DD]. *)

Definition digit_val (c : ascii) : option Z :=
  let n := Z.of_N (N_of_ascii c) in
  if (48 <=? n) && (n <=? 57) then Some (n - 48) else None.

Definition dash : ascii := "-"%char.
Definition blank : ascii := " "%char.

(** CPython's [parse_digits]: [n] decimal digits, accumulated in [acc]. *)
Fixpoint parse_digits (n : nat) (cs : list ascii) (acc : Z) : option (Z * list ascii) :=
  match n with
  | O => Some (acc, cs)
  | S n' =>
      match cs with
      | c :: cs' =>
          match digit_val c with
          | Some v => parse_digits n' cs' (acc * 10 + v)
          | None => None
          end
      | [] => None
      end
  end.

Definition is_leap (y : Z) : bool :=
  (y mod 4 =? 0) && (negb (y mod 100 =? 0) || (y mod 400 =? 0)).

Definition days_in_month (y m : Z) : Z :=
  if m =? 2 then (if is_leap y then 29 else 28)
  else if (m =? 4) || (m =? 6) || (m =? 9) || (m =? 11) then 30
  else 31.

Definition days_before_year (y : Z) : Z :=
  let y1 := y - 1 in y1 * 365 + y1 / 4 - y1 / 100 + y1 / 400.

Definition days_before_month (y m : Z) : Z :=
  let base :=
    match m with
    | 1 => 0 | 2 => 31 | 3 => 59 | 4 => 90 | 5 => 120 | 6 => 151
    | 7 => 181 | 8 => 212 | 9 => 243 | 10 => 273 | 11 => 304 | _ => 334
    end in
  if (2 <? m) && is_leap y then base + 1 else base.

(** Proleptic Gregorian ordinal: 0001-01-01 is day 1. *)
Definition ymd_to_ord (y m d : Z) : Z :=
  days_before_year y + days_before_month y m + d.

Record date : Type := mkdate { year : Z; month : Z; day : Z }.

(** The range checks of the [date] and [datetime] constructors. *)
Definition new_date (y m d : Z) : result date :=
  if (1 <=? y) && (y <=? 9999) && (1 <=? m) && (m <=? 12)
     && (1 <=? d) && (d <=? days_in_month y m)
  then Ok (mkdate y m d) else Err ValueError.

Definition parse_isoformat_date (cs : list ascii) : option (Z * Z * Z) :=
  match parse_digits 4 cs 0 with
  | Some (y, c1 :: r1) =>
      if Ascii.eqb c1 dash then
        match parse_digits 2 r1 0 with
        | Some (m, c2 :: r2) =>
            if Ascii.eqb c2 dash then
              match parse_digits 2 r2 0 with
              | Some (d, _) => Some (y, m, d)
              | None => None
              end
            else None
        | _ => None
        end
      else None
  | _ => None
  end.

(** [datetime.date.fromisoformat(v)] *)
Definition date_fromisoformat (v : pyval) : result date :=
  match v with
  | PStr s =>
      let cs := list_ascii_of_string s in
      if Nat.eqb (length cs) 10 then
        match parse_isoformat_date cs with
        | Some (y, m, d) => new_date y m d
        | None => Err ValueError
        end
      else Err ValueError
  | _ => Err TypeError
  end.

(** [strptime(date, "%Y-%m-%d")] compiles the format to the regular
    expression [(\d\d\d\d)-(1[0-2]|0[1-9]|[1-9])-(3[01]|[12]\d|0[1-9]|[1-9]| [1-9])],
    matches it at the start of the text and refuses text left over.  A
    character class is a predicate on characters, an alternative a sequence
    of classes, and alternatives are tried in order with backtracking. *)

Definition cls (lo hi : Z) (c : ascii) : bool :=
  match digit_val c with
  | Some v => (lo <=? v) && (v <=? hi)
  | None => false
  end.

Fixpoint match_seq (pat : list (ascii -> bool)) (cs : list ascii)
  : option (list ascii * list ascii) :=
  match pat with
  | [] => Some ([], cs)
  | p :: pat' =>
      match cs with
      | c :: cs' =>
          if p c then
            match match_seq pat' cs' with
            | Some (m, r) => Some (c :: m, r)
            | None => None
            end
          else None
      | [] => None
      end
  end.

Fixpoint first_alt {A} (alts : list (list (ascii -> bool))) (cs : list ascii)
    (k : list ascii -> list ascii -> option A) : option A :=
  match alts with
  | [] => None
  | a :: alts' =>
      match match_seq a cs with
      | Some (m, r) =>
          match k m r with
          | Some x => Some x
          | None => first_alt alts' cs k
          end
      | None => first_alt alts' cs k
      end
  end.

Definition year_pat : list (ascii -> bool) := [cls 0 9; cls 0 9; cls 0 9; cls 0 9].
Definition month_alts : list (list (ascii -> bool)) :=
  [[cls 1 1; cls 0 2]; [cls 0 0; cls 1 9]; [cls 1 9]].
Definition day_alts : list (list (ascii -> bool)) :=
  [[cls 3 3; cls 0 1]; [cls 1 2; cls 0 9]; [cls 0 0; cls 1 9]; [cls 1 9];
   [Ascii.eqb blank; cls 1 9]].

(** [int(text)] of a matched group: decimal digits after optional blanks. *)
Fixpoint int_of_group (cs : list ascii) (acc : Z) : Z :=
  match cs with
  | [] => acc
  | c :: cs' =>
      match digit_val c with
      | Some v => int_of_group cs' (acc * 10 + v)
      | None => int_of_group cs' acc
      end
  end.

Definition regex_Ymd (cs : list ascii)
  : option (list ascii * list ascii * list ascii * list ascii) :=
  match match_seq year_pat cs with
  | Some (y, c1 :: r1) =>
      if Ascii.eqb c1 dash then
        first_alt month_alts r1 (fun m r2 =>
          match r2 with
          | c2 :: r3 =>
              if Ascii.eqb c2 dash
              then first_alt day_alts r3 (fun d r4 => Some (y, m, d, r4))
              else None
          | [] => None
          end)
      else None
  | _ => None
  end.

(** [datetime.datetime.strptime(v, "%Y-%m-%d")], a datetime at midnight. *)
Definition strptime_Ymd (v : pyval) : result date :=
  match v with
  | PStr s =>
      match regex_Ymd (list_ascii_of_string s) with
      | Some (y, m, d, []) =>
          new_date (int_of_group y 0) (int_of_group m 0) (int_of_group d 0)
      | _ => Err ValueError
      end
  | _ => Err TypeError
  end.

(** The platform's clock rules.  [datetime.timestamp] reads a naive
    datetime as local time: [local_timestamp pf w] is the POSIX timestamp of
    the local wall-clock time that lies [w] seconds after 1970-01-01T00:00
    on the wall clock, or [None] where the platform cannot convert it. *)
Record platform : Type := { local_timestamp : Z -> option Z }.

Definition epoch_ord : Z := 719163.

(** Seconds from 1970-01-01T00:00 to midnight of [d], on the wall clock. *)
Definition wall_seconds (d : date) : Z :=
  (ymd_to_ord (year d) (month d) (day d) - epoch_ord) * 86400.

(** The wall-clock time 0001-01-02T00:00.  To tell the two readings of a
    repeated wall-clock hour apart, CPython also converts the instant one
    day before the one asked for; for a time on the first day of year 1
    that instant lies in year 0, and the call raises [ValueError] ("year 0
    is out of range") in every time zone. *)
Definition min_wall : Z := (2 - epoch_ord) * 86400.

(** A process on UTC, and one on a zone that stays [east] seconds east of
    UTC (less than a day in size): every wall-clock time from [min_wall]
    on is converted. *)
Definition utc : platform :=
  {| local_timestamp := fun w => if w <? min_wall then None else Some w |}.
Definition fixed_offset (east : Z) : platform :=
  {| local_timestamp := fun w => if w <? min_wall then None else Some (w - east) |}.

(** [HubspotToDF.date_to_unixtimestamp].  The timestamps are whole seconds
    below 2^53 in size, so the float product with 1000 and [int] are exact.
    Where the platform cannot convert, the exception is CPython's
    [ValueError] for a year out of range; [format_filters] catches it
    whatever its class. *)
Definition date_to_unixtimestamp (pf : platform) (date : pyval) : result pyval :=
  match strptime_Ymd date with
  | Ok dt =>
      match local_timestamp pf (wall_seconds dt) with
      | Some t => Ok (PInt (t * 1000))
      | None => Err ValueError
      end
  | Err e => Err e
  end.

(** ** HubspotToDF.format_filters

    The function walks the object bound to [filters] and assigns into it.
    The walk is written over the content of that one object; sub-objects are
    reached through it by position, the way the source reaches them through
    [item], [iterator] and [subitem]. *)

Section FormatFilters.

Variable pf : platform.

(** [for x in c: body], where [rd] reads the object iterated over: the
    iterator is created once ([TypeError] when [c] is not iterable) and
    yields the items of the live object; [body] receives the position and
    the item yielded. *)
Definition for_items (rd : M pyval pyval) (body : nat -> pyval -> M pyval unit)
  : M pyval unit :=
  c <- rd ;;
  its <- lift (py_iter c) ;;
  for_range 0 (length its) (fun k =>
    c' <- rd ;;
    its' <- lift (py_iter c') ;;
    match its' !! k with
    | Some x => body k x
    | None => ret tt
    end).

(** The object bound to [item], which [filters] yielded from position [i]. *)
Definition rd_item (i : nat) : M pyval pyval :=
  filters <- get ;;
  its <- lift (py_iter filters) ;;
  match its !! i with
  | Some item => ret item
  | None => raise IndexError
  end.

(** [item["filters"][iterator]] *)
Definition rd_pred (i iterator : nat) : M pyval pyval :=
  item <- rd_item i ;;
  fs <- lift (py_getitem item (PStr "filters")) ;;
  lift (py_getitem fs (PInt (Z.of_nat iterator))).

(** [filters[filters.index(item)]["filters"][iterator][subitem] = v].
    The assignment mutates the innermost object; the content of the
    objects that hold it is rebuilt around it. *)
Definition assign (i iterator : nat) (subitem v : pyval) : M pyval unit :=
  filters <- get ;;
  item <- rd_item i ;;
  idx <- lift (list_index filters i item) ;;
  g <- lift (py_getitem filters (PInt (Z.of_nat idx))) ;;
  fs <- lift (py_getitem g (PStr "filters")) ;;
  x <- lift (py_getitem fs (PInt (Z.of_nat iterator))) ;;
  x' <- lift (py_setitem x subitem v) ;;
  fs' <- lift (py_setitem fs (PInt (Z.of_nat iterator)) x') ;;
  g' <- lift (py_setitem g (PStr "filters") fs') ;;
  filters' <- lift (py_setitem filters (PInt (Z.of_nat idx)) g') ;;
  put filters'.

(** The body of the innermost loop. *)
Definition leaf (i iterator : nat) (subitem : pyval) : M pyval unit :=
  x <- rd_pred i iterator ;;
  lookup <- lift (py_getitem x subitem) ;;
  try_except_pass (
    _ <- lift (date_fromisoformat lookup) ;;
    x <- rd_pred i iterator ;;
    date_to_format <- lift (py_getitem x subitem) ;;
    date_after_format <- lift (date_to_unixtimestamp pf date_to_format) ;;
    assign i iterator subitem date_after_format).

Definition walk_item (i : nat) : M pyval unit :=
  item <- rd_item i ;;
  fs <- lift (py_getitem item (PStr "filters")) ;;
  n <- lift (py_len fs) ;;
  for_range 0 n (fun iterator =>
    for_items (rd_pred i iterator) (fun _ subitem => leaf i iterator subitem)).

Definition walk : M pyval unit :=
  for_items get (fun i _ => walk_item i).

End FormatFilters.

(** Objects live in a heap; a caller and [format_filters] hold the same
    object when they hold the same location.  A location holds an object
    together with the objects inside it, as one value: that two objects
    share an inner object is not represented, and nothing is stated about
    objects that do. *)
Abbreviation loc := positive.
Abbreviation heap := (gmap loc pyval).

Definition with_object {A} (l : loc) (m : M pyval A) : M heap A :=
  fun h =>
    match h !! l with
    | Some v => let (r, v') := m v in (r, <[l:=v']> h)
    | None => (Err NameError, h)
    end.

(** [format_filters(filters)] returns the reference it was given. *)
Definition format_filters (pf : platform) (filters : loc) : M heap loc :=
  with_object filters (walk pf) ;;;
  ret filters.

(** ** HubspotToDF.get_offset_from_response *)

(** [d.keys()]: only a dict has the method. *)
Definition py_keys (v : pyval) : result (list string) :=
  match v with
  | PDict d => Ok (fst <$> d)
  | _ => Err AttributeError
  end.

Definition has_key (k : string) (ks : list string) : bool :=
  existsb (String.eqb k) ks.

Definition get_offset_from_response (api_response : pyval) : result (pyval * pyval) :=
  match py_keys api_response with
  | Err e => Err e
  | Ok ks =>
      if has_key "paging" ks then
        rbind (py_getitem api_response (PStr "paging")) (fun paging =>
        rbind (py_getitem paging (PStr "next")) (fun next =>
        rbind (py_getitem next (PStr "after")) (fun offset_value =>
        Ok (PStr "after", offset_value))))
      else if has_key "offset" ks then
        rbind (py_getitem api_response (PStr "offset")) (fun offset_value =>
        Ok (PStr "offset", offset_value))
      else Ok (PNone, PNone)
  end.

(** ** HubspotToDF.run

    The [Hubspot] source class is a collaborator: [get_api_url] and
    [get_api_body] build the request and [to_json] performs it.  A request
    is recorded by what [run] puts into it; the transport answers the
    [n]-th request of a call with a decoded body or raises. *)

Inductive http_method : Type := GET | POST.

Record request : Type := mkreq {
  req_method : http_method;
  req_filters : option pyval;            (* the body built from the filters *)
  req_cursor : option (pyval * pyval)    (* offset type and offset value *)
}.

Definition transport : Type := nat -> request -> result pyval.

Record world : Type := mkworld {
  w_heap : heap;
  w_log : list request                   (* the requests issued so far *)
}.

Definition on_heap {A} (m : M heap A) : M world A :=
  fun w => let (r, h') := m (w_heap w) in (r, mkworld h' (w_log w)).

Definition deref (l : loc) : M heap pyval :=
  fun h => match h !! l with
           | Some v => (Ok v, h)
           | None => (Err NameError, h)
           end.

(** [hubspot.to_json(...)] *)
Definition fetch (T : transport) (rq : request) : M world pyval :=
  fun w => (T (length (w_log w)) rq, mkworld (w_heap w) (w_log w ++ [rq])).

(** [n < nrows], for the [int] or [None] that [nrows] holds. *)
Definition lt_nrows (n : nat) (nrows : option Z) : result bool :=
  match nrows with
  | Some z => Ok (Z.of_nat n <? z)
  | None => Err TypeError
  end.

(** [full_dataset.extend(xs)]: a method of lists, taking any iterable. *)
Definition list_extend (full_dataset xs : pyval) : result pyval :=
  match full_dataset with
  | PList l => rbind (py_iter xs) (fun its => Ok (PList (l ++ its)))
  | _ => Err AttributeError
  end.

(** [partition[list(partition.keys())[0]]] *)
Definition first_value (partition : pyval) : result pyval :=
  rbind (py_keys partition) (fun ks =>
  match ks with
  | k :: _ => py_getitem partition (PStr k)
  | [] => Err IndexError
  end).

(** A table is the sequence of its rows; the flattening of a record into
    columns is left to pandas.  [json_normalize] takes one record or a list
    of records. *)
Definition table : Type := list pyval.

Definition is_record (v : pyval) : bool :=
  match v with PDict _ => true | _ => false end.

Definition to_df (data : pyval) : result table :=
  match data with
  | PDict d => Ok [PDict d]
  | PList l => if forallb is_record l then Ok l else Err AttributeError
  | _ => Err NotImplementedError
  end.

(** [df[:nrows]] *)
Definition df_head (rows : table) (nrows : option Z) : table :=
  match nrows with
  | None => rows
  | Some n =>
      if n <? 0 then take (length rows - Z.to_nat (- n)) rows
      else take (Z.to_nat n) rows
  end.

Section Run.

Variable pf : platform.
Variable T : transport.

(** The loop of the POST branch.  The result is [None] when [fuel]
    iterations were not enough to leave the loop. *)
Fixpoint post_loop (fuel : nat) (filters_formatted : loc) (nrows : option Z)
    (partition full_dataset : pyval) : M world (option pyval) :=
  ks <- lift (py_keys partition) ;;
  go <- (if has_key "paging" ks
         then n <- lift (py_len full_dataset) ;; lift (lt_nrows n nrows)
         else ret false) ;;
  if go : bool then
    match fuel with
    | O => ret None
    | S fuel' =>
        body <- on_heap (deref filters_formatted) ;;
        paging <- lift (py_getitem partition (PStr "paging")) ;;
        next <- lift (py_getitem paging (PStr "next")) ;;
        after <- lift (py_getitem next (PStr "after")) ;;
        partition' <- fetch T (mkreq POST (Some body) (Some (PStr "after", after))) ;;
        results <- lift (py_getitem partition' (PStr "results")) ;;
        full_dataset' <- lift (list_extend full_dataset results) ;;
        post_loop fuel' filters_formatted nrows partition' full_dataset'
    end
  else ret (Some full_dataset).

(** The loop of the GET branch. *)
Fixpoint get_loop (fuel : nat) (nrows : option Z)
    (offset_type offset_value full_dataset : pyval) : M world (option pyval) :=
  go <- (if py_truthy offset_value
         then n <- lift (py_len full_dataset) ;; lift (lt_nrows n nrows)
         else ret false) ;;
  if go : bool then
    match fuel with
    | O => ret None
    | S fuel' =>
        partition <- fetch T (mkreq GET None (Some (offset_type, offset_value))) ;;
        page <- lift (first_value partition) ;;
        full_dataset' <- lift (list_extend full_dataset page) ;;
        ot <- lift (get_offset_from_response partition) ;;
        ov <- lift (get_offset_from_response partition) ;;
        get_loop fuel' nrows (fst ot) (snd ov) full_dataset'
    end
  else ret (Some full_dataset).

Definition finish (nrows : option Z) (full_dataset : option pyval)
  : M world (option table) :=
  match full_dataset with
  | None => ret None
  | Some data => df <- lift (to_df data) ;; ret (Some (df_head df nrows))
  end.

Definition run (fuel : nat) (filters : loc) (nrows : option Z)
  : M world (option table) :=
  fv <- on_heap (deref filters) ;;
  if py_truthy fv then
    filters_formatted <- on_heap (format_filters pf filters) ;;
    body <- on_heap (deref filters_formatted) ;;
    partition <- fetch T (mkreq POST (Some body) None) ;;
    full_dataset <- lift (py_getitem partition (PStr "results")) ;;
    r <- post_loop fuel filters_formatted nrows partition full_dataset ;;
    finish nrows r
  else
    partition <- fetch T (mkreq GET None None) ;;
    full_dataset <- lift (first_value partition) ;;
    ot <- lift (get_offset_from_response partition) ;;
    ov <- lift (get_offset_from_response partition) ;;
    r <- get_loop fuel nrows (fst ot) (snd ov) full_dataset ;;
    finish nrows r.

End Run.

(** ** Mindful.__init__

    A naive [datetime] is the count of microseconds since
    0001-01-01T00:00:00; an argument that is not a [datetime] instance
    ([None] included) is [None] here. *)

Definition datetime : Type := Z.

Definition us_per_day : Z := 86400 * 1000000.
Definition datetime_max : Z := 3652059 * us_per_day - 1.   (* 9999-12-31T23:59:59.999999 *)

(** [timedelta(days=n)] *)
Definition timedelta_days (n : Z) : result Z :=
  if (-999999999 <=? n) && (n <=? 999999999) then Ok (n * us_per_day)
  else Err OverflowError.

(** [dt + delta] *)
Definition datetime_add (dt : datetime) (delta : Z) : result datetime :=
  let r := dt + delta in
  if (0 <=? r) && (r <=? datetime_max) then Ok r else Err OverflowError.

Definition credentials : Type := list (string * string).

Record Mindful : Type := mkMindful {
  credentials_mindful : credentials;
  region : string;
  start_date : datetime;
  end_date : datetime;
  file_extension : string;
  header : string
}.

(** What the constructor and the request methods act on: the clock that
    [datetime.now()] reads and the requests sent to the Mindful API, each
    recorded as (endpoint, start_date, end_date). *)
Record mworld : Type := mkmworld {
  clock : datetime;
  sent : list (string * datetime * datetime)
}.

Definition now : M mworld datetime := fun w => (Ok (clock w), w).

(** Lines 63 to 84 of [Mindful.__init__]: the start and the end of the
    requested period. *)
Definition resolve_window (start_date end_date : option datetime) (date_interval : Z)
  : M mworld (datetime * datetime) :=
  match start_date with
  | None =>
      s <- now ;;
      d <- lift (timedelta_days date_interval) ;;
      e <- lift (datetime_add s d) ;;
      ret (s, e)
  | Some s =>
      match end_date with
      | None =>
          d <- lift (timedelta_days date_interval) ;;
          e <- lift (datetime_add s d) ;;
          ret (s, e)
      | Some e =>
          if s >=? e then raise ValueError
          else ret (s, e)
      end
  end.

(** [Mindful.__init__]; [local_config] is the entry ["MINDFUL"] of the
    project's local configuration, when there is one.  The initialiser of
    the base class [Source] only stores the credentials. *)
Definition Mindful_init (local_config : option credentials)
    (credentials_mindful : option credentials) (region : string)
    (start_date end_date : option datetime) (date_interval : Z)
    (file_extension : string) : M mworld Mindful :=
  creds <- match credentials_mindful with
           | Some c => ret c
           | None => match local_config with
                     | Some c => ret c
                     | None => raise CredentialError
                     end
           end ;;
  let region' := if String.eqb region "us1" then "" else region ++ "." in
  win <- resolve_window start_date end_date date_interval ;;
  let vault := match dict_get "VAULT" creds with Some v => v | None => "None" end in
  ret (mkMindful creds region' (fst win) (snd win) file_extension ("Bearer " ++ vault)).

(** [_mindful_api_response], through [get_interactions_list] or
    [get_responses_list]: the only place where a request is sent. *)
Definition mindful_api_response (self : Mindful) (endpoint : string) : M mworld unit :=
  fun w => (Ok tt, mkmworld (clock w) (sent w ++ [(endpoint, start_date self, end_date self)])).

(** ** The behaviour the specification describes

    The definitions below follow the words of the specification; the
    theorems compare them with the code above. *)

(** A filter tree: a list of groups, each a dict whose ["filters"] entry is
    a list of predicates, each predicate a dict of field and value. *)
Definition wf_pred (p : pyval) : Prop :=
  match p with
  | PDict d => NoDup (fst <$> d)
  | _ => False
  end.

Definition wf_group (g : pyval) : Prop :=
  match g with
  | PDict e =>
      match dict_get "filters" e with
      | Some (PList ps) => Forall wf_pred ps
      | _ => False
      end
  | _ => False
  end.

Definition wf_filters (t : pyval) : Prop :=
  match t with
  | PList gs => Forall wf_group gs
  | _ => False
  end.

#[global] Instance wf_pred_dec (p : pyval) : Decision (wf_pred p).
Proof. destruct p; simpl; apply _. Defined.

#[global] Instance wf_group_dec (g : pyval) : Decision (wf_group g).
Proof.
  destruct g as [| | | | |e]; simpl; try apply _.
  destruct (dict_get "filters" e) as [[| | | |ps|]|]; apply _.
Defined.

#[global] Instance wf_filters_dec (t : pyval) : Decision (wf_filters t).
Proof. destruct t; simpl; apply _. Defined.

(** [map_leaves f t] rewrites every leaf (the value of a field of a
    predicate) of the filter tree [t] with [f]. *)
Definition map_pred (f : pyval -> pyval) (p : pyval) : pyval :=
  match p with
  | PDict d => PDict ((fun kv => (fst kv, f (snd kv))) <$> d)
  | _ => p
  end.

Definition map_group (f : pyval -> pyval) (g : pyval) : pyval :=
  match g with
  | PDict e =>
      match dict_get "filters" e with
      | Some (PList ps) => PDict (dict_set "filters" (PList (map_pred f <$> ps)) e)
      | _ => g
      end
  | _ => g
  end.

Definition map_leaves (f : pyval -> pyval) (t : pyval) : pyval :=
  match t with
  | PList gs => PList (map_group f <$> gs)
  | _ => t
  end.

(** The leaf [filters[i]["filters"][j][k]]. *)
Definition read_leaf (t : pyval) (i j : nat) (k : string) : result pyval :=
  rbind (py_getitem t (PInt (Z.of_nat i))) (fun g =>
  rbind (py_getitem g (PStr "filters")) (fun fs =>
  rbind (py_getitem fs (PInt (Z.of_nat j))) (fun p =>
  py_getitem p (PStr k)))).

(** Milliseconds from the epoch to midnight UTC of a date. *)
Definition utc_midnight_ms (d : date) : Z :=
  (ymd_to_ord (year d) (month d) (day d) - epoch_ord) * 86400 * 1000.

(** The normal form of a leaf in the words of the specification: a value
    that parses as a calendar date becomes the milliseconds of its midnight
    UTC, any other value stays. *)
Definition normal_leaf_utc (v : pyval) : pyval :=
  match date_fromisoformat v with
  | Ok d => PInt (utc_midnight_ms d)
  | Err _ => v
  end.

(** The normal form of a leaf on a platform: the milliseconds of the
    date's midnight in local time, where the platform can convert it. *)
Definition normal_leaf (pf : platform) (v : pyval) : pyval :=
  match date_fromisoformat v with
  | Ok d =>
      match local_timestamp pf (wall_seconds d) with
      | Some t => PInt (t * 1000)
      | None => v
      end
  | Err _ => v
  end.

(** The cursor of a response in the words of the specification. *)
Inductive PageCursor : Type :=
  | NoCursor
  | OffsetCursor (value : pyval)
  | AfterCursor (value : pyval).

Definition cursor_pair (c : PageCursor) : pyval * pyval :=
  match c with
  | NoCursor => (PNone, PNone)
  | OffsetCursor v => (PStr "offset", v)
  | AfterCursor v => (PStr "after", v)
  end.

(** The token of a paging/next/after structure, when the body has one. *)
Definition next_after (body : list (string * pyval)) : option pyval :=
  match dict_get "paging" body with
  | Some (PDict pg) =>
      match dict_get "next" pg with
      | Some (PDict nx) => dict_get "after" nx
      | _ => None
      end
  | _ => None
  end.

Definition detect (body : list (string * pyval)) : PageCursor :=
  match next_after body with
  | Some tok => AfterCursor tok
  | None =>
      match dict_get "offset" body with
      | Some v => OffsetCursor v
      | None => NoCursor
      end
  end.

(** ** Sample inputs *)

Definition demo_filters : pyval :=
  PList [PDict [("filters",
     PList [PDict [("propertyName", PStr "createdate"); ("operator", PStr "BETWEEN");
                   ("highValue", PStr "2023-03-27"); ("value", PStr "2023-03-23")];
            PDict [("propertyName", PStr "amount"); ("operator", PStr "GT");
                   ("value", PInt 100)]])]].

Definition row (n : Z) : pyval := PDict [("id", PInt n)].

(** A world in which the caller's [filters] object is at location 1. *)
Definition world_of (filters : pyval) : world := mkworld {[ 1%positive := filters ]} [].

(** Pages of the legacy API with an offset and of the search API with an
    after token, a page without rows that still names a next page, and
    filters without a date. *)
Definition page_offset : pyval :=
  PDict [("contacts", PList [row 1]); ("has-more", PBool true); ("offset", PInt 100)].

Definition page_after : pyval :=
  PDict [("results", PList [row 1]);
         ("paging", PDict [("next", PDict [("after", PStr "1")])])].

Definition page_empty : pyval :=
  PDict [("results", PList []); ("offset", PInt 1)].

Definition req_offset_1 : request := mkreq GET None (Some (PStr "offset", PInt 1)).

Definition amount_filters : pyval :=
  PList [PDict [("filters",
     PList [PDict [("propertyName", PStr "amount"); ("operator", PStr "GT");
                   ("value", PInt 100)]])]].

(** Credentials, the instant 2023-04-06T00:00:00 and a world whose clock
    shows it. *)
Definition creds0 : credentials := [("VAULT", "token")].
Definition t0 : datetime := 738615 * us_per_day.
Definition mw0 : mworld := mkmworld t0 [].

(** ** Notions used in the proofs *)

(** A predicate is settled when none of its leaves would be rewritten any
    more; a group is settled when its predicates are. *)
Definition settled_pred (pf : platform) (p : pyval) : Prop :=
  match p with
  | PDict d => NoDup (fst <$> d) /\ Forall (fun kv => normal_leaf pf (snd kv) = snd kv) d
  | _ => False
  end.

Definition settled_group (pf : platform) (g : pyval) : Prop :=
  match g with
  | PDict e =>
      match dict_get "filters" e with
      | Some (PList ps) => Forall (settled_pred pf) ps
      | _ => False
      end
  | _ => False
  end.

(** The content of [filters] in which group [i] has the entries [e], with
    the predicates [ps] under "filters", predicate [j] having the entries
    [d]. *)
Definition focus (gs : list pyval) (i : nat) (e : list (string * pyval))
    (ps : list pyval) (j : nat) (d : list (string * pyval)) : pyval :=
  PList (<[i := PDict (dict_set "filters" (PList (<[j := PDict d]> ps)) e)]> gs).

(** A list whose first [n] elements have been rewritten with [g]. *)
Definition partial_map {A} (g : A -> A) (n : nat) (l : list A) : list A :=
  ((g <$> take n l) ++ drop n l)%list.

(** Pages of the GET branch and of the POST branch that carry at least one
    record and whose cursor fields, where present, can be read. *)
Definition get_pages (T : transport) : Prop :=
  forall k rq, exists p rows c,
    T k rq = Ok p /\ first_value p = Ok (PList rows) /\ rows <> []
    /\ forallb is_record rows = true /\ get_offset_from_response p = Ok c.

Definition post_pages (T : transport) : Prop :=
  forall k rq, exists body rows,
    T k rq = Ok (PDict body) /\ dict_get "results" body = Some (PList rows)
    /\ rows <> [] /\ forallb is_record rows = true
    /\ (dict_get "paging" body = None \/ is_Some (next_after body)).

(** The order of calendar dates. *)
Definition date_lt (d1 d2 : date) : Prop :=
  year d1 < year d2
  \/ (year d1 = year d2
      /\ (month d1 < month d2 \/ (month d1 = month d2 /\ day d1 < day d2))).

(** The requests of a log from position [base] on were all answered. *)
Definition answered (T : transport) (base : nat) (log : list request) : Prop :=
  forall k rq, (base <= k)%nat -> log !! k = Some rq -> exists p, T k rq = Ok p.

(** The rows of the first [m] pages, page after page. *)
Definition fetched_rows (rowsof : nat -> list pyval) (m : nat) : list pyval :=
  concat (rowsof <$> seq 0 m).

(** Request [k + 1] of a log was built, by [next], from the response to
    request [k]. *)
Definition chained (T : transport) (next : pyval -> option request)
    (log : list request) : Prop :=
  forall k rq, log !! S k = Some rq ->
    exists rq0 p, log !! k = Some rq0 /\ T k rq0 = Ok p /\ next p = Some rq.

(** The request that follows a response in the GET branch and in the POST
    branch with body [fb]. *)
Definition next_get (p : pyval) : option request :=
  match get_offset_from_response p with
  | Ok c => Some (mkreq GET None (Some c))
  | Err _ => None
  end.

Definition next_post (fb : pyval) (p : pyval) : option request :=
  match rbind (py_getitem p (PStr "paging")) (fun paging =>
        rbind (py_getitem paging (PStr "next")) (fun next =>
        py_getitem next (PStr "after"))) with
  | Ok tok => Some (mkreq POST (Some fb) (Some (PStr "after", tok)))
  | Err _ => None
  end.

(** ** The request methods of [Mindful] and [response_to_file]

    [handle_api_response] (project utility) and pandas are collaborators:
    the [n]-th call of [handle_api_response] answers with a response or
    raises, [read_json] stands for [pd.read_json] on the decoded content,
    and a data frame is an opaque value that is written to a file. *)

Record response : Type := mkresponse { status_code : Z; content : string }.

(** What [handle_api_response] is called with; the method is always GET,
    and the dates travel as the text of the two instants. *)
Record api_call : Type := mkcall {
  call_url : string;
  call_limit : Z;
  call_start_date : datetime;
  call_end_date : datetime;
  call_authorization : string
}.

Inductive log_level : Type := INFO | ERROR | WARNING.
Inductive file_format : Type := CSV | PARQUET.

(** [os.path.join(a, b)] of [posixpath]. *)
Definition starts_with_sep (s : string) : bool :=
  match s with
  | String c _ => Ascii.eqb c "/"%char
  | EmptyString => false
  end.

Fixpoint ends_with_sep (s : string) : bool :=
  match s with
  | EmptyString => false
  | String c EmptyString => Ascii.eqb c "/"%char
  | String _ s' => ends_with_sep s'
  end.

Definition path_join (a b : string) : string :=
  if starts_with_sep b then b
  else if String.eqb a "" || ends_with_sep a then a ++ b
  else a ++ "/" ++ b.

Section MindfulMethods.

Variable frame : Type.
Variable read_json : string -> result frame.
Variable api : nat -> api_call -> result response.

(** An instance after [__init__], with the attributes that the methods
    add ([endpoint], [_file_name]: absent until first assigned), the calls
    made, the log records written and the files written. *)
Record session : Type := mksession {
  self : Mindful;
  self_endpoint : option string;
  self_file_name : option string;
  calls : list api_call;
  logged : list log_level;
  files : list (string * file_format * frame)
}.

Definition new_session (obj : Mindful) : session :=
  mksession obj None None [] [] [].

Definition set_endpoint (e : string) : M session unit :=
  fun s => (Ok tt, mksession (self s) (Some e) (self_file_name s) (calls s)
                             (logged s) (files s)).

Definition set_file_name (f : string) : M session unit :=
  fun s => (Ok tt, mksession (self s) (self_endpoint s) (Some f) (calls s)
                             (logged s) (files s)).

(** Reading an attribute that was never assigned raises [AttributeError]. *)
Definition get_endpoint : M session string :=
  fun s => match self_endpoint s with
           | Some e => (Ok e, s)
           | None => (Err AttributeError, s)
           end.

Definition get_file_name : M session string :=
  fun s => match self_file_name s with
           | Some f => (Ok f, s)
           | None => (Err AttributeError, s)
           end.

Definition logger (lv : log_level) : M session unit :=
  fun s => (Ok tt, mksession (self s) (self_endpoint s) (self_file_name s) (calls s)
                             (logged s ++ [lv])%list (files s)).

Definition write_file (path : string) (fmt : file_format) (df : frame) : M session unit :=
  fun s => (Ok tt, mksession (self s) (self_endpoint s) (self_file_name s) (calls s)
                             (logged s) (files s ++ [(path, fmt, df)])%list).

(** [_mindful_api_response(params, endpoint)], with the [params] that both
    callers build. *)
Definition _mindful_api_response (limit : Z) (endpoint : string) : M session response :=
  fun s =>
    let c := mkcall ("https://" ++ region (self s) ++ "surveydynamix.com/api/" ++ endpoint)
                    limit (start_date (self s)) (end_date (self s)) (header (self s)) in
    (api (length (calls s)) c,
     mksession (self s) (self_endpoint s) (self_file_name s) (calls s ++ [c])%list
               (logged s) (files s)).

Definition get_interactions_list (limit : Z) : M session response :=
  set_endpoint "interactions" ;;;
  endpoint <- get_endpoint ;;
  response <- _mindful_api_response limit endpoint ;;
  if status_code response =? 200
  then logger INFO ;;; ret response
  else logger ERROR ;;; raise APIError.

Definition get_responses_list (limit : Z) : M session response :=
  set_endpoint "responses" ;;;
  endpoint <- get_endpoint ;;
  response <- _mindful_api_response limit endpoint ;;
  if status_code response =? 200
  then logger INFO ;;; ret response
  else logger ERROR ;;; raise APIError.

(** [not file_name], for a name that is a [str] or [None]. *)
Definition no_name (file_name : option string) : bool :=
  match file_name with
  | None => true
  | Some f => String.eqb f ""
  end.

Definition response_to_file (resp : response) (file_name : option string)
    (file_path : string) : M session unit :=
  data_frame <- lift (read_json (content resp)) ;;
  s <- get ;;
  let ext := file_extension (self s) in
  (if no_name file_name
   then endpoint <- get_endpoint ;;
        set_file_name (path_join file_path (endpoint ++ "." ++ ext))
   else set_file_name
          (path_join file_path
             (match file_name with Some f => f | None => "" end ++ "." ++ ext))) ;;;
  if String.eqb ext "csv"
  then f <- get_file_name ;; write_file f CSV data_frame
  else if String.eqb ext "parquet"
  then f <- get_file_name ;; write_file f PARQUET data_frame
  else logger WARNING.

End MindfulMethods.

(** An object as [__init__] builds it, a transport that answers every call
    with status 200, and a reader of JSON text that accepts any content. *)
Definition obj0 : Mindful :=
  mkMindful creds0 "eu1." t0 (t0 + us_per_day) "csv" "Bearer token".

Definition api_ok : nat -> api_call -> result response :=
  fun _ _ => Ok (mkresponse 200 "[]").

Definition read_any : string -> result string := fun text => Ok text.


(** * Properties *)

Local Open Scope list_scope.

Example date_to_unixtimestamp_utc :
  date_to_unixtimestamp utc (PStr "2023-04-06") = Ok (PInt 1680739200000).
Proof. reflexivity. Qed.

Example date_to_unixtimestamp_cest :
  date_to_unixtimestamp (fixed_offset 7200) (PStr "2023-04-06") = Ok (PInt 1680732000000).
Proof. reflexivity. Qed.

Example strptime_short : strptime_Ymd (PStr "2023-4-6") = Ok (mkdate 2023 4 6).
Proof. reflexivity. Qed.

Example fromisoformat_short : date_fromisoformat (PStr "2023-4-6") = Err ValueError.
Proof. reflexivity. Qed.

Example fromisoformat_feb30 : date_fromisoformat (PStr "2023-02-30") = Err ValueError.
Proof. reflexivity. Qed.

(** ** Cursor detection *)

Lemma has_key_dict_get {A} (k : string) (d : list (string * A)) :
  has_key k (fst <$> d) = true <-> is_Some (dict_get k d).
Proof.
  unfold has_key, dict_get. induction d as [|[k' v] d IH]; simpl.
  - split; [discriminate | intros [x Hx]; discriminate].
  - rewrite (String.eqb_sym k k'). destruct (String.eqb k' k); simpl.
    + split; eauto.
    + exact IH.
Qed.

Lemma has_key_none {A} (k : string) (d : list (string * A)) :
  dict_get k d = None -> has_key k (fst <$> d) = false.
Proof.
  intros H. destruct (has_key k (fst <$> d)) eqn:E; [|done].
  apply has_key_dict_get in E. rewrite H in E. by destruct E.
Qed.

Lemma has_key_some {A} (k : string) (d : list (string * A)) (v : A) :
  dict_get k d = Some v -> has_key k (fst <$> d) = true.
Proof. intros H. apply has_key_dict_get. eauto. Qed.

(** A paging/next/after chain can be read exactly when [next_after] finds
    its token. *)
Lemma paging_chain_some (body : list (string * pyval)) (tok : pyval) :
  next_after body = Some tok ->
  rbind (py_getitem (PDict body) (PStr "paging")) (fun paging =>
  rbind (py_getitem paging (PStr "next")) (fun next =>
  rbind (py_getitem next (PStr "after")) (fun v => Ok (PStr "after", v))))
  = Ok (PStr "after", tok).
Proof.
  unfold next_after. simpl.
  destruct (dict_get "paging" body) as [[| | | | |pg]|]; try discriminate.
  simpl. destruct (dict_get "next" pg) as [[| | | | |nx]|]; try discriminate.
  simpl. intros ->. reflexivity.
Qed.

Lemma paging_chain_none (body : list (string * pyval)) (pg : pyval) :
  dict_get "paging" body = Some pg ->
  next_after body = None ->
  let r := rbind (py_getitem (PDict body) (PStr "paging")) (fun paging =>
           rbind (py_getitem paging (PStr "next")) (fun next =>
           rbind (py_getitem next (PStr "after")) (fun v => Ok (PStr "after", v)))) in
  r = Err KeyError \/ r = Err TypeError.
Proof.
  unfold next_after. intros Hpg. simpl. rewrite Hpg. simpl.
  destruct pg as [| | | | |pd]; simpl; auto.
  destruct (dict_get "next" pd) as [nx|]; simpl; auto.
  destruct nx as [| | | | |nd]; simpl; auto.
  destruct (dict_get "after" nd); [discriminate|auto].
Qed.

(** C10: a body that has the key "paging" without a next/after chain under
    it makes [get_offset_from_response] raise [KeyError] or [TypeError], and
    the pair [(None, None)] is returned only for a body that has neither the
    key "paging" nor the key "offset". *)
Theorem get_offset_partial (body : list (string * pyval)) :
  (forall pg, dict_get "paging" body = Some pg -> next_after body = None ->
     get_offset_from_response (PDict body) = Err KeyError \/
     get_offset_from_response (PDict body) = Err TypeError)
  /\ (get_offset_from_response (PDict body) = Ok (PNone, PNone) ->
      dict_get "paging" body = None /\ dict_get "offset" body = None).
Proof.
  split.
  - intros pg Hpg Hna. unfold get_offset_from_response. simpl.
    rewrite (has_key_some _ _ _ Hpg).
    exact (paging_chain_none body pg Hpg Hna).
  - unfold get_offset_from_response. simpl.
    destruct (dict_get "paging" body) as [pg|] eqn:Hpg.
    + rewrite (has_key_some _ _ _ Hpg). simpl.
      destruct (py_getitem pg (PStr "next")) as [nx|]; simpl; [|discriminate].
      destruct (py_getitem nx (PStr "after")); simpl; discriminate.
    + rewrite (has_key_none _ _ Hpg).
      destruct (dict_get "offset" body) as [ov|] eqn:Hov.
      * rewrite (has_key_some _ _ _ Hov). simpl. discriminate.
      * auto.
Qed.

Lemma get_offset_partial_witness :
  let body := [("results", PList []); ("paging", PDict [])] in
  get_offset_from_response (PDict body) = Err KeyError \/
  get_offset_from_response (PDict body) = Err TypeError.
Proof.
  intros body.
  apply (proj1 (get_offset_partial body) (PDict [])); reflexivity.
Defined.

(** C5, as stated: every body is mapped to the cursor that the decision
    order of the specification gives.  It fails on a body whose "paging"
    entry has no next/after chain: the specification's order falls through
    to the None cursor, the code raises. *)
Lemma detect_total_counterexample :
  get_offset_from_response (PDict [("results", PList []); ("paging", PDict [])])
  <> Ok (cursor_pair (detect [("results", PList []); ("paging", PDict [])])).
Proof. discriminate. Qed.

(** C5, amended: for a body without the key "paging", or with a complete
    paging/next/after chain, [get_offset_from_response] returns the cursor
    of the decision order: the after-style cursor when the chain is there
    (also next to a top-level "offset"), else the offset-style cursor when
    "offset" is there, else [(None, None)]. *)
Theorem get_offset_priority (body : list (string * pyval)) :
  dict_get "paging" body = None \/ is_Some (next_after body) ->
  get_offset_from_response (PDict body) = Ok (cursor_pair (detect body)).
Proof.
  intros [Hpg|[tok Htok]]; unfold get_offset_from_response, detect; simpl.
  - rewrite (has_key_none _ _ Hpg).
    assert (next_after body = None) as -> by (unfold next_after; by rewrite Hpg).
    destruct (dict_get "offset" body) as [ov|] eqn:Hov.
    + rewrite (has_key_some _ _ _ Hov). reflexivity.
    + rewrite (has_key_none _ _ Hov). reflexivity.
  - assert (is_Some (dict_get "paging" body)) as [pg Hpg].
    { unfold next_after in Htok. destruct (dict_get "paging" body); [eauto|discriminate]. }
    rewrite (has_key_some _ _ _ Hpg), Htok.
    exact (paging_chain_some body tok Htok).
Qed.

Lemma get_offset_priority_witness :
  get_offset_from_response
    (PDict [("results", PList []); ("offset", PInt 7);
            ("paging", PDict [("next", PDict [("after", PStr "40")])])])
  = Ok (PStr "after", PStr "40").
Proof.
  apply (get_offset_priority
           [("results", PList []); ("offset", PInt 7);
            ("paging", PDict [("next", PDict [("after", PStr "40")])])]).
  right. simpl. eauto.
Defined.

(** ** The time window of [Mindful] *)

(** C6: the constructor accepts [date_interval = 0] when the end is
    inferred, and the window it stores has its end equal to its start;
    a negative interval puts the end before the start. *)
Theorem window_not_strict :
  Mindful_init None (Some creds0) "eu1" None None 0 "csv" mw0
    = (Ok (mkMindful creds0 "eu1." t0 t0 "csv" "Bearer token"), mw0)
  /\ Mindful_init None (Some creds0) "eu1" (Some t0) None (-1) "csv" mw0
    = (Ok (mkMindful creds0 "eu1." t0 (t0 - us_per_day) "csv" "Bearer token"), mw0)
  /\ ~ (t0 < t0) /\ ~ (t0 < t0 - us_per_day).
Proof. repeat split; try reflexivity; unfold t0, us_per_day; lia. Qed.

(** Where the interval is positive, an inferred window is strict. *)
Lemma resolve_window_inferred_strict (s : option datetime) (n : Z) (w w' : mworld)
    (a b : datetime) :
  0 < n ->
  resolve_window s None n w = (Ok (a, b), w') -> a < b.
Proof.
  intros Hn. unfold resolve_window, bind, now, lift, ret, timedelta_days, datetime_add.
  destruct s as [s|]; simpl.
  - destruct ((-999999999 <=? n) && (n <=? 999999999)); [|discriminate].
    destruct ((0 <=? s + n * us_per_day) && (s + n * us_per_day <=? datetime_max));
      [|discriminate].
    intros [= <- <- <-]. unfold us_per_day. lia.
  - destruct ((-999999999 <=? n) && (n <=? 999999999)); [|discriminate].
    destruct ((0 <=? clock w + n * us_per_day) && (clock w + n * us_per_day <=? datetime_max));
      [|discriminate].
    intros [= <- <- <-]. unfold us_per_day. lia.
Qed.

(** C7, as stated: the failure is a [ValidationError].  The exception
    raised is the built-in [ValueError]. *)
Lemma window_rejected_counterexample :
  fst (resolve_window (Some t0) (Some t0) 1 mw0) <> Err ValidationError.
Proof. discriminate. Qed.

(** C7, amended: with both dates given and [start_date >= end_date], the
    time-window code raises [ValueError], and so does the constructor once
    the credentials are found; no request has been sent at that point. *)
Theorem window_rejected (lc cm : option credentials) (rg ext : string)
    (s e : datetime) (n : Z) (w : mworld) :
  s >= e ->
  is_Some cm \/ is_Some lc ->
  resolve_window (Some s) (Some e) n w = (Err ValueError, w)
  /\ Mindful_init lc cm rg (Some s) (Some e) n ext w = (Err ValueError, w).
Proof.
  intros Hse Hc.
  assert (resolve_window (Some s) (Some e) n w = (Err ValueError, w)) as Hr.
  { unfold resolve_window. destruct (Z.geb_spec s e) as [_|Hlt]; [reflexivity|lia]. }
  split; [exact Hr|].
  unfold Mindful_init, bind, ret, raise.
  destruct cm as [c|]; [by rewrite Hr|].
  destruct lc as [c|]; [by rewrite Hr|].
  destruct Hc as [[? ?]|[? ?]]; discriminate.
Qed.

Lemma window_rejected_witness :
  Mindful_init None (Some creds0) "eu1" (Some t0) (Some t0) 1 "csv" mw0
  = (Err ValueError, mw0).
Proof.
  apply (window_rejected None (Some creds0) "eu1" "csv" t0 t0 1 mw0).
  - unfold t0, us_per_day; lia.
  - left. eauto.
Defined.

(** ** The fetch loops of [run] *)

(** C1: with [nrows = None] and a first page that carries a cursor, [run]
    raises [TypeError] at the loop test [len(full_dataset) < nrows], after
    the one request of the first page, in the GET branch and in the POST
    branch alike. *)
Theorem run_no_limit_raises (pf : platform) (fuel : nat) :
  run pf (fun _ _ => Ok page_offset) fuel 1%positive None (world_of (PDict []))
    = (Err TypeError, mkworld {[ 1%positive := PDict [] ]} [mkreq GET None None])
  /\ run pf (fun _ _ => Ok page_after) fuel 1%positive None (world_of amount_filters)
    = (Err TypeError,
       mkworld {[ 1%positive := amount_filters ]} [mkreq POST (Some amount_filters) None]).
Proof. destruct fuel; split; reflexivity. Qed.

Lemma get_loop_empty_pages (pf : platform) (fuel : nat) (w : world) :
  get_loop (fun _ _ => Ok page_empty) fuel (Some 1) (PStr "offset") (PInt 1) (PList []) w
  = (Ok None, mkworld (w_heap w) (w_log w ++ replicate fuel req_offset_1)).
Proof.
  revert w. induction fuel as [|fuel IH]; intros w.
  - simpl. unfold bind, ret, lift. simpl. rewrite app_nil_r. by destruct w.
  - change (get_loop (fun _ _ => Ok page_empty) (S fuel) (Some 1) (PStr "offset")
              (PInt 1) (PList []) w)
      with (get_loop (fun _ _ => Ok page_empty) fuel (Some 1) (PStr "offset")
              (PInt 1) (PList []) (mkworld (w_heap w) (w_log w ++ [req_offset_1]))).
    rewrite IH. simpl. by rewrite <- app_assoc.
Qed.

Lemma run_empty_pages (fuel : nat) :
  run utc (fun _ _ => Ok page_empty) fuel 1%positive (Some 1) (world_of (PDict []))
  = (Ok None,
     mkworld {[ 1%positive := PDict [] ]} (mkreq GET None None :: replicate fuel req_offset_1)).
Proof.
  change (run utc (fun _ _ => Ok page_empty) fuel 1%positive (Some 1) (world_of (PDict [])))
    with (bind (get_loop (fun _ _ => Ok page_empty) fuel (Some 1) (PStr "offset")
                  (PInt 1) (PList []))
               (fun r => finish (Some 1) r)
               (mkworld {[ 1%positive := PDict [] ]} [mkreq GET None None])).
  unfold bind. rewrite (get_loop_empty_pages utc). reflexivity.
Qed.

(** C2, as stated: some fixed number bounds the fetches of every run, a run
    that would go beyond it ending in an error.  On an API whose pages are
    empty and always name a next page, the loop has issued [fuel + 1]
    requests after [fuel] iterations, for every [fuel], and raised nothing. *)
Lemma fetch_ceiling_counterexample :
  ~ exists N : nat, forall fuel : nat,
      let r := run utc (fun _ _ => Ok page_empty) fuel 1%positive (Some 1)
                   (world_of (PDict [])) in
      (length (w_log (snd r)) <= N)%nat \/ exists e, fst r = Err e.
Proof.
  intros [N H]. specialize (H N). rewrite run_empty_pages in H. simpl in H.
  rewrite length_replicate in H. destruct H as [H|[e H]]; [lia|discriminate].
Qed.

(** C9, as stated: with [nrows = 0] every first response gives a table
    without rows.  An empty JSON object has no first key to take the rows
    from, and [run] raises [IndexError]. *)
Lemma zero_limit_counterexample :
  fst (run utc (fun _ _ => Ok (PDict [])) 0 1%positive (Some 0) (world_of (PDict [])))
  <> Ok (Some []).
Proof. discriminate. Qed.

(** ** Dates: [strptime] accepts what [fromisoformat] accepts *)

Lemma digit_val_range (c : ascii) (v : Z) : digit_val c = Some v -> 0 <= v <= 9.
Proof.
  unfold digit_val.
  destruct ((48 <=? Z.of_N (N_of_ascii c)) && (Z.of_N (N_of_ascii c) <=? 57)) eqn:E;
    [|discriminate].
  intros [= <-]. apply andb_true_iff in E as [?%Z.leb_le ?%Z.leb_le]. lia.
Qed.

Lemma cls_true (lo hi : Z) (c : ascii) (v : Z) :
  digit_val c = Some v -> lo <= v <= hi -> cls lo hi c = true.
Proof.
  intros Hc Hv. unfold cls. rewrite Hc.
  apply andb_true_iff. split; apply Z.leb_le; lia.
Qed.

Lemma cls_false (lo hi : Z) (c : ascii) (v : Z) :
  digit_val c = Some v -> v < lo \/ hi < v -> cls lo hi c = false.
Proof.
  intros Hc Hv. unfold cls. rewrite Hc.
  apply andb_false_iff. destruct Hv; [left|right]; apply Z.leb_gt; lia.
Qed.

Lemma days_in_month_le (y m : Z) : days_in_month y m <= 31.
Proof.
  unfold days_in_month.
  repeat match goal with |- context [if ?b then _ else _] => destruct b end; lia.
Qed.

Lemma new_date_inv (y m d : Z) (dt : date) :
  new_date y m d = Ok dt ->
  dt = mkdate y m d /\ 1 <= y <= 9999 /\ 1 <= m <= 12 /\ 1 <= d <= 31.
Proof.
  unfold new_date.
  destruct ((1 <=? y) && (y <=? 9999) && (1 <=? m) && (m <=? 12) && (1 <=? d)
            && (d <=? days_in_month y m)) eqn:E; [|discriminate].
  intros [= <-].
  repeat (apply andb_true_iff in E as [E ?%Z.leb_le]). apply Z.leb_le in E.
  pose proof (days_in_month_le y m). split; [reflexivity | lia].
Qed.

Lemma parse_digits_cons (n : nat) (c : ascii) (cs : list ascii) (acc : Z) :
  parse_digits (S n) (c :: cs) acc =
  match digit_val c with
  | Some v => parse_digits n cs (acc * 10 + v)
  | None => None
  end.
Proof. reflexivity. Qed.

Lemma strptime_of_iso (v : pyval) (dt : date) :
  date_fromisoformat v = Ok dt -> strptime_Ymd v = Ok dt.
Proof.
  destruct v as [| | |s| |]; try discriminate.
  unfold date_fromisoformat, strptime_Ymd.
  generalize (list_ascii_of_string s) as cs. intros cs.
  destruct (Nat.eqb_spec (length cs) 10) as [Hlen|]; [|discriminate].
  destruct cs as [|y1 [|y2 [|y3 [|y4 [|s1 [|m1 [|m2 [|s2 [|d1 [|d2 [|? ?]]]]]]]]]]];
    try discriminate.
  clear Hlen.
  unfold parse_isoformat_date. cbn [parse_digits].
  destruct (digit_val y1) as [a1|] eqn:Hy1; [|discriminate].
  destruct (digit_val y2) as [a2|] eqn:Hy2; [|discriminate].
  destruct (digit_val y3) as [a3|] eqn:Hy3; [|discriminate].
  destruct (digit_val y4) as [a4|] eqn:Hy4; [|discriminate].
  destruct (Ascii.eqb s1 dash) eqn:Hs1; [|discriminate].
  destruct (digit_val m1) as [b1|] eqn:Hm1; [|discriminate].
  destruct (digit_val m2) as [b2|] eqn:Hm2; [|discriminate].
  destruct (Ascii.eqb s2 dash) eqn:Hs2; [|discriminate].
  destruct (digit_val d1) as [e1|] eqn:Hd1; [|discriminate].
  destruct (digit_val d2) as [e2|] eqn:Hd2; [|discriminate].
  intros Hnew. pose proof (new_date_inv _ _ _ _ Hnew) as (_ & Hy & Hm & Hd).
  pose proof (digit_val_range _ _ Hy1). pose proof (digit_val_range _ _ Hy2).
  pose proof (digit_val_range _ _ Hy3). pose proof (digit_val_range _ _ Hy4).
  pose proof (digit_val_range _ _ Hm1). pose proof (digit_val_range _ _ Hm2).
  pose proof (digit_val_range _ _ Hd1). pose proof (digit_val_range _ _ Hd2).
  unfold regex_Ymd, year_pat. cbn [match_seq].
  rewrite (cls_true 0 9 y1 a1 Hy1), (cls_true 0 9 y2 a2 Hy2),
    (cls_true 0 9 y3 a3 Hy3), (cls_true 0 9 y4 a4 Hy4) by lia.
  rewrite Hs1.
  assert (b1 = 0 \/ b1 = 1) as [-> | ->] by lia;
  assert (e1 = 0 \/ e1 = 1 \/ e1 = 2 \/ e1 = 3) as [-> | [-> | [-> | ->]]] by lia;
  unfold month_alts, day_alts; cbn [first_alt match_seq];
  repeat match goal with
         | H : digit_val ?c = Some ?v |- context [cls ?lo ?hi ?c] =>
             first [ rewrite (cls_true lo hi c v H) by lia
                   | rewrite (cls_false lo hi c v H) by lia ]
         | |- context [Ascii.eqb s2 dash] => rewrite Hs2
         | _ => progress cbn [first_alt match_seq]
         end;
  cbn [int_of_group];
  rewrite ?Hy1, ?Hy2, ?Hy3, ?Hy4, ?Hm1, ?Hm2, ?Hd1, ?Hd2;
  exact Hnew.
Qed.

(** ** The normal form of a leaf *)

Lemma normal_leaf_idem (pf : platform) (v : pyval) :
  normal_leaf pf (normal_leaf pf v) = normal_leaf pf v.
Proof.
  unfold normal_leaf at 2 3.
  destruct (date_fromisoformat v) as [dt|] eqn:Hd.
  - destruct (local_timestamp pf (wall_seconds dt)) eqn:Ht; [reflexivity|].
    unfold normal_leaf. by rewrite Hd, Ht.
  - unfold normal_leaf. by rewrite Hd.
Qed.

(** Where the platform converts the midnight of a date to the same count
    of seconds, as a process on UTC does for the dates it can convert, the
    normal form is the one of the specification. *)
Lemma normal_leaf_utc_eq (pf : platform) (v : pyval) :
  (forall dt, date_fromisoformat v = Ok dt ->
              local_timestamp pf (wall_seconds dt) = Some (wall_seconds dt)) ->
  normal_leaf pf v = normal_leaf_utc v.
Proof.
  intros H. unfold normal_leaf, normal_leaf_utc, utc_midnight_ms.
  destruct (date_fromisoformat v) as [dt|]; [|done].
  by rewrite (H dt eq_refl).
Qed.

(** A process on UTC converts 2023-03-27 to its midnight UTC and cannot
    convert 0001-01-01, which stays the string it was. *)
Example normal_leaf_utc_march :
  normal_leaf utc (PStr "2023-03-27") = PInt 1679875200000
  /\ normal_leaf_utc (PStr "2023-03-27") = PInt 1679875200000.
Proof. split; reflexivity. Qed.

Example normal_leaf_utc_day_one :
  normal_leaf utc (PStr "0001-01-01") = PStr "0001-01-01"
  /\ normal_leaf_utc (PStr "0001-01-01") = PInt (-62135596800000)
  /\ date_to_unixtimestamp utc (PStr "0001-01-01") = Err ValueError.
Proof. repeat split; reflexivity. Qed.

(** ** Entries of a dict *)

Lemma dict_get_cons {A} (k k' : string) (v' : A) (d : list (string * A)) :
  dict_get k ((k', v') :: d) = if String.eqb k' k then Some v' else dict_get k d.
Proof. unfold dict_get. simpl. by destruct (String.eqb k' k). Qed.

Lemma dict_get_set_eq {A} (k : string) (v : A) (d : list (string * A)) :
  dict_get k (dict_set k v d) = Some v.
Proof.
  induction d as [|[k' v'] d IH]; simpl.
  - by rewrite dict_get_cons, String.eqb_refl.
  - destruct (String.eqb k' k) eqn:E; rewrite dict_get_cons, E; [done|exact IH].
Qed.

Lemma dict_set_set {A} (k : string) (v v' : A) (d : list (string * A)) :
  dict_set k v (dict_set k v' d) = dict_set k v d.
Proof.
  induction d as [|[k0 v0] d IH]; simpl.
  - by rewrite String.eqb_refl.
  - destruct (String.eqb k0 k) eqn:E; simpl; rewrite E; [done|by rewrite IH].
Qed.

Lemma dict_set_id {A} (k : string) (v : A) (d : list (string * A)) :
  dict_get k d = Some v -> dict_set k v d = d.
Proof.
  induction d as [|[k0 v0] d IH]; [discriminate|].
  rewrite dict_get_cons. simpl. destruct (String.eqb k0 k).
  - by intros [= ->].
  - intros H. by rewrite IH.
Qed.

Lemma dict_get_elem {A} (k : string) (v : A) (d : list (string * A)) :
  dict_get k d = Some v -> (k, v) ∈ d.
Proof.
  induction d as [|[k0 v0] d IH]; [discriminate|].
  rewrite dict_get_cons. destruct (String.eqb_spec k0 k) as [->|].
  - intros [= ->]. apply list_elem_of_here.
  - intros H. apply list_elem_of_further. auto.
Qed.

Lemma dict_get_key {A} (k : string) (v : A) (d : list (string * A)) :
  dict_get k d = Some v -> k ∈ fst <$> d.
Proof.
  intros H%dict_get_elem. apply list_elem_of_fmap. by exists (k, v).
Qed.

Lemma dict_get_nodup {A} (d : list (string * A)) (n : nat) (k : string) (v : A) :
  NoDup (fst <$> d) -> d !! n = Some (k, v) -> dict_get k d = Some v.
Proof.
  revert n. induction d as [|[k0 v0] d IH]; intros n Hnd Hn; [done|].
  rewrite dict_get_cons. simpl in Hnd. apply NoDup_cons in Hnd as [Hk0 Hnd].
  destruct n as [|n]; simpl in Hn.
  - injection Hn as -> ->. by rewrite String.eqb_refl.
  - destruct (String.eqb_spec k0 k) as [->|]; [|by eapply IH].
    exfalso. apply Hk0. apply list_elem_of_fmap. exists (k, v). split; [done|].
    by eapply list_elem_of_lookup_2.
Qed.

Lemma dict_set_nodup {A} (d : list (string * A)) (n : nat) (k : string) (v v' : A) :
  NoDup (fst <$> d) -> d !! n = Some (k, v) -> dict_set k v' d = <[n:=(k, v')]> d.
Proof.
  revert n. induction d as [|[k0 v0] d IH]; intros n Hnd Hn; [done|].
  simpl in Hnd. apply NoDup_cons in Hnd as [Hk0 Hnd].
  destruct n as [|n]; simpl in Hn; simpl.
  - injection Hn as -> ->. by rewrite String.eqb_refl.
  - destruct (String.eqb_spec k0 k) as [->|].
    + exfalso. apply Hk0. apply list_elem_of_fmap. exists (k, v). split; [done|].
      by eapply list_elem_of_lookup_2.
    + f_equal. by eapply IH.
Qed.

(** ** Equality of values *)

Lemma py_eq_str (a : pyval) (s : string) : py_eq a (PStr s) = true -> a = PStr s.
Proof.
  destruct a; simpl; try discriminate. by intros ->%String.eqb_eq.
Qed.

Lemma py_eq_list_inv (a : pyval) (y : list pyval) :
  py_eq a (PList y) = true ->
  exists x, a = PList x /\ Forall2 (fun u w => py_eq u w = true) x y.
Proof.
  destruct a as [| | | |x|]; simpl; try discriminate.
  intros H. exists x. split; [done|].
  revert y H. induction x as [|u x IH]; intros [|w y] H; try discriminate.
  - constructor.
  - apply andb_true_iff in H as [Hu Hx]. constructor; auto.
Qed.

Lemma py_eq_dict_inv (a : pyval) (y : list (string * pyval)) :
  py_eq a (PDict y) = true ->
  exists x, a = PDict x /\ length x = length y /\
    forall k u, (k, u) ∈ x -> exists w, dict_get k y = Some w /\ py_eq u w = true.
Proof.
  destruct a as [| | | | |x]; simpl; try discriminate.
  intros H. apply andb_true_iff in H as [Hlen H]. apply Nat.eqb_eq in Hlen.
  exists x. split; [done|]. split; [done|]. clear Hlen.
  induction x as [|[k0 u0] x IH]; intros k u Hin.
  - by apply elem_of_nil in Hin.
  - apply andb_true_iff in H as [H0 H].
    apply elem_of_cons in Hin as [[= -> ->]|Hin]; [|by apply IH].
    destruct (dict_get k0 y) as [w|]; [|discriminate]. eauto.
Qed.

Lemma list_index_from_found (l : list pyval) (j i : nat) (item : pyval) :
  (j <= i)%nat -> (i - j < length l)%nat ->
  (forall m el, l !! m = Some el -> (j + m < i)%nat -> py_eq el item = false) ->
  list_index_from l j i item = Ok i.
Proof.
  revert j. induction l as [|el l IH]; intros j Hji Hlen Hne; simpl in *; [lia|].
  destruct (Nat.eqb_spec j i) as [->|Hneq]; [done|]. simpl.
  rewrite (Hne 0%nat el) by (done || lia).
  apply IH; [lia|lia|].
  intros m el' Hm Hlt. apply (Hne (S m) el'); [done|lia].
Qed.

Lemma normal_leaf_changes (pf : platform) (v : pyval) :
  normal_leaf pf v <> v ->
  exists s dt t, v = PStr s /\ date_fromisoformat v = Ok dt
                 /\ local_timestamp pf (wall_seconds dt) = Some t
                 /\ normal_leaf pf v = PInt (t * 1000).
Proof.
  unfold normal_leaf. intros H.
  destruct (date_fromisoformat v) as [dt|] eqn:Hd; [|done].
  destruct (local_timestamp pf (wall_seconds dt)) as [t|] eqn:Ht; [|done].
  destruct v as [| | |s| |]; try discriminate. eauto 10.
Qed.

(** ** Groups that the walk has left behind *)

Lemma map_pred_settled (pf : platform) (p : pyval) :
  wf_pred p -> settled_pred pf (map_pred (normal_leaf pf) p).
Proof.
  destruct p as [| | | | |d]; try done. simpl. intros Hnd. split.
  - rewrite <- list_fmap_compose. exact Hnd.
  - apply Forall_fmap, Forall_forall. intros [k v] _. simpl. apply normal_leaf_idem.
Qed.

Lemma map_group_settled (pf : platform) (g : pyval) :
  wf_group g -> settled_group pf (map_group (normal_leaf pf) g).
Proof.
  destruct g as [| | | | |e]; try done. simpl.
  destruct (dict_get "filters" e) as [[| | | |ps|]|] eqn:He; try done.
  intros Hwf. simpl. rewrite dict_get_set_eq.
  apply Forall_fmap. eapply Forall_impl; [exact Hwf|]. apply map_pred_settled.
Qed.

(** A settled group does not compare equal to a group in which a leaf is
    still to be rewritten: [filters.index(item)] cannot stop at it. *)
Lemma settled_not_eq (pf : platform) (a : pyval) (e : list (string * pyval))
    (ps : list pyval) (j : nat) (d : list (string * pyval)) (k : string) (v : pyval) :
  settled_group pf a ->
  dict_get "filters" e = Some (PList ps) ->
  ps !! j = Some (PDict d) ->
  dict_get k d = Some v ->
  normal_leaf pf v <> v ->
  py_eq a (PDict e) = false.
Proof.
  intros Ha He Hj Hk Hv.
  destruct (py_eq a (PDict e)) eqn:E; [exfalso|done].
  apply py_eq_dict_inv in E as (ea & -> & _ & Hsub).
  simpl in Ha.
  destruct (dict_get "filters" ea) as [[| | | |psa|]|] eqn:Hea; try done.
  destruct (Hsub _ _ (dict_get_elem _ _ _ Hea)) as (w & Hw & Eps).
  rewrite He in Hw. injection Hw as <-.
  apply py_eq_list_inv in Eps as (x & [= <-] & Hall).
  destruct (Forall2_lookup_r _ _ _ _ _ Hall Hj) as (pa & Hpa & Epa).
  pose proof (Forall_lookup_1 _ _ _ _ Ha Hpa) as Hset.
  apply py_eq_dict_inv in Epa as (da & -> & Hlen & Hsubd).
  destruct Hset as [Hnd Hfix].
  assert (k ∈ fst <$> da) as Hkin.
  { assert ((fst <$> da) ⊆+ (fst <$> d)) as Hsm.
    { apply NoDup_submseteq; [done|].
      intros k' [[k'' u] [-> Hin]]%list_elem_of_fmap. simpl.
      destruct (Hsubd _ _ Hin) as (w & Hw & _). by eapply dict_get_key. }
    apply submseteq_length_Permutation in Hsm; [|by rewrite !length_fmap, Hlen].
    rewrite Hsm. by eapply dict_get_key. }
  apply list_elem_of_fmap in Hkin as ([k' u] & -> & Hin). simpl in *.
  destruct (Hsubd _ _ Hin) as (w & Hw & Eu).
  rewrite Hk in Hw. injection Hw as <-.
  destruct (normal_leaf_changes pf v Hv) as (s & _ & _ & -> & _ & _ & _).
  apply py_eq_str in Eu as ->.
  apply Hv. rewrite Forall_forall in Hfix. exact (Hfix _ Hin).
Qed.

(** ** One step of the walk *)

Lemma bind_ok {St A B} (m : M St A) (k : A -> M St B) (s s' : St) (a : A) :
  m s = (Ok a, s') -> bind m k s = k a s'.
Proof. unfold bind. by intros ->. Qed.

Lemma bind_lift_ok {St A B} (r : result A) (k : A -> M St B) (s : St) (a : A) :
  r = Ok a -> bind (lift r) k s = k a s.
Proof. by intros ->. Qed.

Lemma norm_index_nat (len n : nat) :
  (n < len)%nat -> norm_index len (Z.of_nat n) = Some n.
Proof.
  intros H. unfold norm_index.
  destruct (Z.ltb_spec (Z.of_nat n) 0) as [?|_]; [lia|].
  destruct (Z.leb_spec 0 (Z.of_nat n)) as [_|?]; [|lia].
  destruct (Z.ltb_spec (Z.of_nat n) (Z.of_nat len)) as [_|?]; [|lia].
  simpl. by rewrite Nat2Z.id.
Qed.

Lemma getitem_list_nat (l : list pyval) (n : nat) (v : pyval) :
  l !! n = Some v -> py_getitem (PList l) (PInt (Z.of_nat n)) = Ok v.
Proof.
  intros H. simpl. rewrite norm_index_nat by (by eapply lookup_lt_Some).
  by rewrite H.
Qed.

Lemma setitem_list_nat (l : list pyval) (n : nat) (v : pyval) :
  (n < length l)%nat ->
  py_setitem (PList l) (PInt (Z.of_nat n)) v = Ok (PList (<[n:=v]> l)).
Proof. intros H. simpl. by rewrite norm_index_nat. Qed.

Lemma for_range_states {St} (F : nat -> St) (body : nat -> M St unit)
    (start count : nat) :
  (forall k, (start <= k < start + count)%nat -> body k (F k) = (Ok tt, F (S k))) ->
  for_range start count body (F start) = (Ok tt, F (start + count)%nat).
Proof.
  revert start. induction count as [|count IH]; intros start Hbody; simpl.
  - by rewrite Nat.add_0_r.
  - unfold bind. rewrite Hbody by lia. rewrite IH.
    + by rewrite Nat.add_succ_r.
    + intros k Hk. apply Hbody. lia.
Qed.

Lemma partial_map_0 {A} (g : A -> A) (l : list A) : partial_map g 0 l = l.
Proof. reflexivity. Qed.

Lemma partial_map_all {A} (g : A -> A) (l : list A) :
  partial_map g (length l) l = g <$> l.
Proof. unfold partial_map. by rewrite firstn_all, drop_all, app_nil_r. Qed.

Lemma partial_map_length {A} (g : A -> A) (n : nat) (l : list A) :
  length (partial_map g n l) = length l.
Proof.
  unfold partial_map. rewrite length_app, length_fmap, length_take, length_drop. lia.
Qed.

Lemma partial_map_lookup {A} (g : A -> A) (n : nat) (l : list A) :
  partial_map g n l !! n = l !! n.
Proof.
  unfold partial_map. destruct (decide (n < length l)%nat) as [Hlt|Hge].
  - rewrite lookup_app_r; rewrite length_fmap, length_take; [|lia].
    rewrite lookup_drop. f_equal. lia.
  - rewrite (lookup_ge_None_2 l) by lia. apply lookup_ge_None_2.
    rewrite length_app, length_fmap, length_take, length_drop. lia.
Qed.

Lemma partial_map_lookup_lt {A} (g : A -> A) (n m : nat) (l : list A) :
  (m < n)%nat -> partial_map g n l !! m = g <$> l !! m.
Proof.
  intros Hlt. unfold partial_map. destruct (decide (m < length l)%nat) as [Hm|Hm].
  - rewrite lookup_app_l by (rewrite length_fmap, length_take; lia).
    by rewrite list_lookup_fmap, lookup_take_lt.
  - rewrite (lookup_ge_None_2 l) by lia. apply lookup_ge_None_2.
    rewrite length_app, length_fmap, length_take, length_drop. lia.
Qed.

Lemma partial_map_step {A} (g : A -> A) (n : nat) (l : list A) (x : A) :
  l !! n = Some x -> <[n := g x]> (partial_map g n l) = partial_map g (S n) l.
Proof.
  intros Hn. pose proof (lookup_lt_Some _ _ _ Hn) as Hlt. unfold partial_map.
  rewrite insert_app_r_alt; rewrite length_fmap, length_take; [|lia].
  replace (n - n `min` length l)%nat with 0%nat by lia.
  rewrite (take_S_r l n x Hn), fmap_app, <- app_assoc. f_equal.
  rewrite (drop_S l x n Hn). reflexivity.
Qed.

Lemma partial_map_fmap {A B} (g : A -> A) (h : A -> B) (n : nat) (l : list A) :
  (forall x, h (g x) = h x) -> h <$> partial_map g n l = h <$> l.
Proof.
  intros Hh. unfold partial_map.
  rewrite fmap_app, <- list_fmap_compose.
  rewrite (list_fmap_ext (h ∘ g) h (take n l)) by (intros; apply Hh).
  by rewrite <- fmap_app, take_drop.
Qed.

Section LeafStep.

Variable pf : platform.
Variables (gs : list pyval) (i : nat) (e : list (string * pyval)).
Variables (ps : list pyval) (j : nat).
Hypothesis Hi : (i < length gs)%nat.
Hypothesis Hj : (j < length ps)%nat.
Hypothesis Hprev :
  forall i' g, (i' < i)%nat -> gs !! i' = Some g -> settled_group pf g.

Local Abbreviation st := (focus gs i e ps j).

Lemma rd_item_focus (d : list (string * pyval)) :
  rd_item i (st d)
  = (Ok (PDict (dict_set "filters" (PList (<[j := PDict d]> ps)) e)), st d).
Proof.
  unfold rd_item, bind, get, lift, ret, focus. simpl.
  by rewrite list_lookup_insert_eq.
Qed.

Lemma rd_pred_focus (d : list (string * pyval)) :
  rd_pred i j (st d) = (Ok (PDict d), st d).
Proof.
  unfold rd_pred. rewrite (bind_ok _ _ _ _ _ (rd_item_focus d)).
  unfold bind, lift. cbn [py_getitem]. rewrite dict_get_set_eq.
  rewrite (getitem_list_nat _ j (PDict d)); [done|].
  by rewrite list_lookup_insert_eq.
Qed.

Lemma assign_focus (d : list (string * pyval)) (n : nat) (k : string) (v v' : pyval) :
  NoDup (fst <$> d) -> d !! n = Some (k, v) -> normal_leaf pf v <> v ->
  assign i j (PStr k) v' (st d) = (Ok tt, st (<[n := (k, v')]> d)).
Proof.
  intros Hnd Hn Hv. unfold assign.
  unfold bind at 1. unfold get at 1.
  rewrite (bind_ok _ _ _ _ _ (rd_item_focus d)).
  assert (list_index (st d) i
            (PDict (dict_set "filters" (PList (<[j := PDict d]> ps)) e)) = Ok i) as Hidx.
  { unfold focus, list_index. apply list_index_from_found; [lia| |].
    - rewrite length_insert. lia.
    - intros m el Hm Hlt. simpl in Hlt.
      rewrite list_lookup_insert_ne in Hm by lia.
      eapply (settled_not_eq pf el _ _ j d k v).
      + eapply Hprev; [|exact Hm]. lia.
      + apply dict_get_set_eq.
      + by apply list_lookup_insert_eq.
      + by eapply dict_get_nodup.
      + exact Hv. }
  rewrite (bind_lift_ok _ _ _ _ Hidx).
  unfold focus at 1.
  rewrite (bind_lift_ok _ _ _ _
             (getitem_list_nat _ i _ (list_lookup_insert_eq _ _ _ Hi))).
  unfold bind, lift, put. cbn [py_getitem py_setitem]. rewrite dict_get_set_eq.
  rewrite (getitem_list_nat _ j (PDict d)) by (by rewrite list_lookup_insert_eq).
  cbn [py_setitem]. rewrite (dict_set_nodup d n k v v' Hnd Hn).
  rewrite norm_index_nat by (rewrite ?length_insert; lia).
  unfold focus. cbn [py_setitem].
  rewrite norm_index_nat by (rewrite ?length_insert; lia).
  rewrite dict_set_set, !list_insert_insert_eq. reflexivity.
Qed.

Lemma leaf_focus (d : list (string * pyval)) (n : nat) (k : string) (v : pyval) :
  NoDup (fst <$> d) -> d !! n = Some (k, v) ->
  leaf pf i j (PStr k) (st d) = (Ok tt, st (<[n := (k, normal_leaf pf v)]> d)).
Proof.
  intros Hnd Hn. unfold leaf.
  rewrite (bind_ok _ _ _ _ _ (rd_pred_focus d)).
  assert (py_getitem (PDict d) (PStr k) = Ok v) as Hget.
  { simpl. by rewrite (dict_get_nodup d n k v Hnd Hn). }
  rewrite (bind_lift_ok _ _ _ _ Hget).
  unfold try_except_pass.
  assert (normal_leaf pf v = v -> st (<[n := (k, normal_leaf pf v)]> d) = st d) as Hsame.
  { intros ->. by rewrite list_insert_id. }
  unfold bind at 1. unfold lift at 1.
  destruct (date_fromisoformat v) as [dt|err] eqn:Hiso.
  - rewrite (bind_ok _ _ _ _ _ (rd_pred_focus d)).
    rewrite (bind_lift_ok _ _ _ _ Hget).
    unfold bind at 1. unfold lift at 1. unfold date_to_unixtimestamp.
    rewrite (strptime_of_iso v dt Hiso).
    destruct (local_timestamp pf (wall_seconds dt)) as [t|] eqn:Ht.
    + assert (normal_leaf pf v = PInt (t * 1000)) as Hnl.
      { unfold normal_leaf. by rewrite Hiso, Ht. }
      rewrite Hnl.
      rewrite (assign_focus d n k v (PInt (t * 1000)) Hnd Hn); [done|].
      rewrite Hnl. destruct v; discriminate.
    + rewrite Hsame; [done|]. unfold normal_leaf. by rewrite Hiso, Ht.
  - rewrite Hsame; [done|]. unfold normal_leaf. by rewrite Hiso.
Qed.

Local Abbreviation mf := (fun kv : string * pyval => (fst kv, normal_leaf pf (snd kv))).

(** The innermost loop rewrites every leaf of predicate [j]. *)
Lemma fields_loop (d : list (string * pyval)) :
  NoDup (fst <$> d) ->
  for_items (rd_pred i j) (fun _ subitem => leaf pf i j subitem) (st d)
  = (Ok tt, st (mf <$> d)).
Proof.
  intros Hnd. unfold for_items.
  rewrite (bind_ok _ _ _ _ _ (rd_pred_focus d)).
  unfold bind at 1. unfold lift at 1. cbn [py_iter]. rewrite length_fmap.
  rewrite <- (partial_map_all mf d).
  change (st d) with ((fun n => st (partial_map mf n d)) 0%nat).
  apply (for_range_states (fun n => st (partial_map mf n d))).
  intros n [_ Hn]. simpl in Hn.
  destruct (lookup_lt_is_Some_2 d n Hn) as [[k v] Hk].
  rewrite (bind_ok _ _ _ _ _ (rd_pred_focus _)).
  unfold bind at 1. unfold lift at 1. cbn [py_iter].
  rewrite list_lookup_fmap, partial_map_lookup, Hk. simpl.
  rewrite (leaf_focus (partial_map mf n d) n k v).
  - by rewrite <- (partial_map_step mf n d (k, v) Hk).
  - by rewrite (partial_map_fmap mf fst).
  - by rewrite partial_map_lookup.
Qed.

End LeafStep.

(** ** The walk over a filter tree *)

Lemma wf_pred_inv (p : pyval) :
  wf_pred p -> exists d, p = PDict d /\ NoDup (fst <$> d).
Proof. destruct p; try done. eauto. Qed.

Lemma wf_group_inv (g : pyval) :
  wf_group g ->
  exists e ps, g = PDict e /\ dict_get "filters" e = Some (PList ps) /\ Forall wf_pred ps.
Proof.
  destruct g as [| | | | |e]; try done. simpl.
  destruct (dict_get "filters" e) as [[| | | |ps|]|] eqn:He; try done.
  intros H. by exists e, ps.
Qed.

(** The body of the outer loop rewrites every leaf of group [i]. *)
Lemma walk_item_spec (pf : platform) (gs : list pyval) (i : nat) (g : pyval) :
  gs !! i = Some g ->
  wf_group g ->
  (forall i' g', (i' < i)%nat -> gs !! i' = Some g' -> settled_group pf g') ->
  walk_item pf i (PList gs)
  = (Ok tt, PList (<[i := map_group (normal_leaf pf) g]> gs)).
Proof.
  intros Hg (e & ps & -> & He & Hps)%wf_group_inv Hprev.
  pose proof (lookup_lt_Some _ _ _ Hg) as Hi.
  unfold walk_item.
  assert (rd_item i (PList gs) = (Ok (PDict e), PList gs)) as Hrd.
  { unfold rd_item, bind, get, lift, ret. simpl. by rewrite Hg. }
  rewrite (bind_ok _ _ _ _ _ Hrd).
  unfold bind at 1. unfold lift at 1. cbn [py_getitem]. rewrite He.
  unfold bind at 1. unfold lift at 1. cbn [py_len].
  set (stg := fun ps' : list pyval =>
                PList (<[i := PDict (dict_set "filters" (PList ps') e)]> gs)).
  assert (PList gs = stg (partial_map (map_pred (normal_leaf pf)) 0 ps)) as ->.
  { unfold stg. rewrite partial_map_0, (dict_set_id _ _ _ He).
    by rewrite list_insert_id. }
  assert (PList (<[i := map_group (normal_leaf pf) (PDict e)]> gs)
          = stg (partial_map (map_pred (normal_leaf pf)) (0 + length ps) ps)) as ->.
  { unfold stg. simpl. by rewrite He, partial_map_all. }
  apply (for_range_states (fun n => stg (partial_map (map_pred (normal_leaf pf)) n ps))).
  intros j [_ Hj]. simpl in Hj.
  destruct (lookup_lt_is_Some_2 ps j Hj) as [p Hp].
  destruct (wf_pred_inv p (Forall_lookup_1 _ _ _ _ Hps Hp)) as (d & -> & Hnd).
  set (psj := partial_map (map_pred (normal_leaf pf)) j ps).
  assert (psj !! j = Some (PDict d)) as Hpsj.
  { unfold psj. by rewrite partial_map_lookup. }
  assert (stg psj = focus gs i e psj j d) as ->.
  { unfold stg, focus. by rewrite (list_insert_id psj j (PDict d) Hpsj). }
  rewrite (fields_loop pf gs i e psj j); [| done | | done | done].
  - unfold focus, stg.
    by rewrite <- (partial_map_step (map_pred (normal_leaf pf)) j ps (PDict d) Hp).
  - unfold psj. rewrite partial_map_length. lia.
Qed.

(** On a filter tree the walk ends without an exception and has rewritten
    every leaf to its normal form. *)
Lemma walk_wf (pf : platform) (t : pyval) :
  wf_filters t -> walk pf t = (Ok tt, map_leaves (normal_leaf pf) t).
Proof.
  destruct t as [| | | |gs|]; try done. simpl. intros Hwf.
  unfold walk, for_items.
  unfold bind at 1. unfold get at 1.
  unfold bind at 1. unfold lift at 1. cbn [py_iter].
  rewrite <- (partial_map_all (map_group (normal_leaf pf)) gs).
  change (PList gs)
    with ((fun n => PList (partial_map (map_group (normal_leaf pf)) n gs)) 0%nat) at 1.
  apply (for_range_states
           (fun n => PList (partial_map (map_group (normal_leaf pf)) n gs))).
  intros i [_ Hi]. simpl in Hi.
  destruct (lookup_lt_is_Some_2 gs i Hi) as [g Hg].
  unfold bind at 1. unfold get at 1.
  unfold bind at 1. unfold lift at 1. cbn [py_iter].
  rewrite partial_map_lookup, Hg.
  rewrite (walk_item_spec pf _ i g).
  - by rewrite <- (partial_map_step (map_group (normal_leaf pf)) i gs g Hg).
  - by rewrite partial_map_lookup.
  - by eapply Forall_lookup_1.
  - intros i' g' Hlt Hg'. rewrite partial_map_lookup_lt in Hg' by done.
    destruct (gs !! i') as [g0|] eqn:Hg0; [|discriminate].
    injection Hg' as <-. apply map_group_settled. by eapply Forall_lookup_1.
Qed.

Lemma map_pred_wf (f : pyval -> pyval) (p : pyval) : wf_pred p -> wf_pred (map_pred f p).
Proof.
  destruct p as [| | | | |d]; try done. simpl. intros Hnd.
  by rewrite <- list_fmap_compose.
Qed.

Lemma map_group_wf (f : pyval -> pyval) (g : pyval) : wf_group g -> wf_group (map_group f g).
Proof.
  intros (e & ps & -> & He & Hps)%wf_group_inv. simpl. rewrite He. simpl.
  rewrite dict_get_set_eq. apply Forall_fmap. eapply Forall_impl; [exact Hps|].
  apply map_pred_wf.
Qed.

Lemma map_leaves_wf (f : pyval -> pyval) (t : pyval) :
  wf_filters t -> wf_filters (map_leaves f t).
Proof.
  destruct t as [| | | |gs|]; try done. simpl. intros H.
  apply Forall_fmap. eapply Forall_impl; [exact H|]. apply map_group_wf.
Qed.

Lemma map_pred_idem (f : pyval -> pyval) (p : pyval) :
  (forall v, f (f v) = f v) -> map_pred f (map_pred f p) = map_pred f p.
Proof.
  intros Hf. destruct p as [| | | | |d]; try done. simpl. f_equal.
  rewrite <- list_fmap_compose. apply list_fmap_ext. intros _ [k v] _. simpl.
  by rewrite Hf.
Qed.

Lemma map_group_idem (f : pyval -> pyval) (g : pyval) :
  (forall v, f (f v) = f v) -> map_group f (map_group f g) = map_group f g.
Proof.
  intros Hf. destruct g as [| | | | |e]; try done. simpl.
  destruct (dict_get "filters" e) as [[| | | |ps|]|] eqn:He; simpl; rewrite ?He; try done.
  rewrite dict_get_set_eq, dict_set_set. do 3 f_equal.
  rewrite <- list_fmap_compose. apply list_fmap_ext. intros _ p _. simpl.
  by apply map_pred_idem.
Qed.

Lemma map_leaves_idem (f : pyval -> pyval) (t : pyval) :
  (forall v, f (f v) = f v) -> map_leaves f (map_leaves f t) = map_leaves f t.
Proof.
  intros Hf. destruct t as [| | | |gs|]; try done. simpl. f_equal.
  rewrite <- list_fmap_compose. apply list_fmap_ext. intros _ g _. simpl.
  by apply map_group_idem.
Qed.

(** ** [format_filters] on the caller's object *)

Lemma format_filters_wf (pf : platform) (h : heap) (l : loc) (t : pyval) :
  h !! l = Some t -> wf_filters t ->
  format_filters pf l h = (Ok l, <[l := map_leaves (normal_leaf pf) t]> h).
Proof.
  intros Hl Hwf. unfold format_filters, bind, with_object, ret.
  by rewrite Hl, (walk_wf pf t Hwf).
Qed.

Lemma getitem_list_nat_inv (l : list pyval) (n : nat) (v : pyval) :
  py_getitem (PList l) (PInt (Z.of_nat n)) = Ok v -> l !! n = Some v.
Proof.
  simpl. destruct (decide (n < length l)%nat) as [Hlt|Hge].
  - rewrite norm_index_nat by done. by destruct (l !! n) as [x|]; intros [= ->].
  - unfold norm_index.
    destruct (Z.ltb_spec (Z.of_nat n) 0) as [?|_]; [lia|].
    destruct (Z.ltb_spec (Z.of_nat n) (Z.of_nat (length l))) as [?|_]; [lia|].
    by rewrite andb_false_r.
Qed.

Lemma dict_get_fmap (f : pyval -> pyval) (k : string) (d : list (string * pyval)) :
  dict_get k ((fun kv => (fst kv, f (snd kv))) <$> d) = f <$> dict_get k d.
Proof.
  induction d as [|[k0 v0] d IH]; [done|].
  rewrite fmap_cons, !dict_get_cons. simpl. by destruct (String.eqb k0 k).
Qed.

Lemma read_leaf_map_leaves (f : pyval -> pyval) (t : pyval) (i j : nat)
    (k : string) (v : pyval) :
  wf_filters t ->
  read_leaf t i j k = Ok v ->
  read_leaf (map_leaves f t) i j k = Ok (f v).
Proof.
  destruct t as [| | | |gs|]; try done. simpl wf_filters. intros Hwf.
  unfold read_leaf.
  destruct (py_getitem (PList gs) (PInt (Z.of_nat i))) as [g|] eqn:Hg; [|discriminate].
  apply getitem_list_nat_inv in Hg.
  destruct (wf_group_inv g (Forall_lookup_1 _ _ _ _ Hwf Hg)) as (e & ps & -> & He & Hps).
  cbn [rbind py_getitem]. rewrite He. cbn [rbind].
  destruct (py_getitem (PList ps) (PInt (Z.of_nat j))) as [p|] eqn:Hp; [|discriminate].
  apply getitem_list_nat_inv in Hp.
  destruct (wf_pred_inv p (Forall_lookup_1 _ _ _ _ Hps Hp)) as (d & -> & _).
  cbn [rbind py_getitem].
  destruct (dict_get k d) as [v0|] eqn:Hk; [|discriminate]. intros [= ->].
  cbn [map_leaves].
  rewrite (getitem_list_nat _ i (map_group f (PDict e)))
    by (by rewrite list_lookup_fmap, Hg).
  cbn [map_group rbind]. rewrite He. cbn [py_getitem]. rewrite dict_get_set_eq.
  cbn [rbind].
  rewrite (getitem_list_nat _ j (map_pred f (PDict d)))
    by (by rewrite list_lookup_fmap, Hp).
  cbn [map_pred rbind py_getitem]. by rewrite dict_get_fmap, Hk.
Qed.

(** C3, as stated: a leaf that parses as a calendar date becomes the
    milliseconds of that date's midnight UTC.  On a platform two hours east
    of UTC the leaves of the sample tree become the milliseconds of
    midnight local time, 7200000 less. *)
Lemma normalise_utc_counterexample :
  snd (format_filters (fixed_offset 7200) 1%positive {[ 1%positive := demo_filters ]})
    !! 1%positive
  <> Some (map_leaves normal_leaf_utc demo_filters).
Proof. vm_compute. discriminate. Qed.

(** C3, amended: on a filter tree [format_filters] raises nothing, and the
    leaf under every group, predicate and field is afterwards the normal
    form of the leaf that was there: the milliseconds from the epoch to
    midnight of the date in the platform's local time exactly when the
    leaf is a string of the form YYYY-MM-DD that names a date and the
    platform converts it, and the leaf itself in every other case (a date
    that the platform cannot convert, as 0001-01-01 is for CPython, among
    them).  The result is the midnight UTC of the specification for the
    leaves whose midnight the platform converts to the same count of
    seconds, as a process on UTC does. *)
Theorem format_filters_leaves (pf : platform) (h : heap) (l : loc) (t : pyval) :
  h !! l = Some t -> wf_filters t ->
  (exists h' t',
      format_filters pf l h = (Ok l, h') /\ h' !! l = Some t' /\
      forall i j k v, read_leaf t i j k = Ok v ->
                      read_leaf t' i j k = Ok (normal_leaf pf v))
  /\ (forall v dt ts, date_fromisoformat v = Ok dt ->
        local_timestamp pf (wall_seconds dt) = Some ts ->
        normal_leaf pf v = PInt (ts * 1000))
  /\ (forall v, (forall dt, date_fromisoformat v = Ok dt ->
                            local_timestamp pf (wall_seconds dt) = None) ->
        normal_leaf pf v = v)
  /\ (forall v,
        (forall dt, date_fromisoformat v = Ok dt ->
                    local_timestamp pf (wall_seconds dt) = Some (wall_seconds dt)) ->
        normal_leaf pf v = normal_leaf_utc v).
Proof.
  intros Hl Hwf. split; [|split; [|split]].
  - exists (<[l := map_leaves (normal_leaf pf) t]> h), (map_leaves (normal_leaf pf) t).
    split; [by apply format_filters_wf|]. split; [by rewrite lookup_insert_eq|].
    intros i j k v Hv. by apply read_leaf_map_leaves.
  - intros v dt ts Hd Ht. unfold normal_leaf. by rewrite Hd, Ht.
  - intros v Hv. unfold normal_leaf.
    destruct (date_fromisoformat v) as [dt|]; [|done]. by rewrite (Hv dt).
  - apply normal_leaf_utc_eq.
Qed.

Lemma format_filters_leaves_witness :
  exists h' t',
    format_filters (fixed_offset 7200) 1%positive {[ 1%positive := demo_filters ]}
      = (Ok 1%positive, h')
    /\ h' !! 1%positive = Some t'
    /\ forall i j k v, read_leaf demo_filters i j k = Ok v ->
                       read_leaf t' i j k = Ok (normal_leaf (fixed_offset 7200) v).
Proof.
  apply (format_filters_leaves (fixed_offset 7200) {[ 1%positive := demo_filters ]}
           1%positive demo_filters).
  - reflexivity.
  - compute_done.
Defined.

(** C4, as stated: the object the caller passed is the same after the
    call.  The dates of the sample tree have been overwritten in it. *)
Lemma format_filters_pure_counterexample :
  snd (format_filters utc 1%positive {[ 1%positive := demo_filters ]})
  <> {[ 1%positive := demo_filters ]}.
Proof.
  intros H. apply (f_equal (fun m : heap => m !! 1%positive)) in H.
  vm_compute in H. discriminate.
Qed.

(** C4, amended: [format_filters] works in place.  It returns the reference
    it was given; after the call the caller's object, which is the object
    returned, holds the normalised tree; and it is the tree it was before
    the call only when no leaf had to be rewritten. *)
Theorem format_filters_in_place (pf : platform) (h : heap) (l : loc) (t : pyval) :
  h !! l = Some t -> wf_filters t ->
  exists h',
    format_filters pf l h = (Ok l, h')
    /\ h' !! l = Some (map_leaves (normal_leaf pf) t)
    /\ (h' = h <-> map_leaves (normal_leaf pf) t = t).
Proof.
  intros Hl Hwf. exists (<[l := map_leaves (normal_leaf pf) t]> h).
  split; [by apply format_filters_wf|].
  split; [by rewrite lookup_insert_eq|].
  split.
  - intros H. apply (f_equal (fun m : heap => m !! l)) in H.
    rewrite lookup_insert_eq, Hl in H. by injection H.
  - intros ->. by apply insert_id.
Qed.

Lemma format_filters_in_place_witness :
  exists h',
    format_filters utc 1%positive {[ 1%positive := demo_filters ]} = (Ok 1%positive, h')
    /\ h' !! 1%positive = Some (map_leaves (normal_leaf utc) demo_filters)
    /\ (h' = {[ 1%positive := demo_filters ]}
        <-> map_leaves (normal_leaf utc) demo_filters = demo_filters).
Proof.
  apply (format_filters_in_place utc {[ 1%positive := demo_filters ]}
           1%positive demo_filters).
  - reflexivity.
  - compute_done.
Defined.

(** C8: normalising twice is normalising once.  A second call on the
    object that the first call returned gives the same reference back and
    leaves the heap, integer leaves included, as the first call left it. *)
Theorem format_filters_idempotent (pf : platform) (h : heap) (l : loc) (t : pyval) :
  h !! l = Some t -> wf_filters t ->
  exists h1,
    format_filters pf l h = (Ok l, h1)
    /\ format_filters pf l h1 = (Ok l, h1)
    /\ forall z, normal_leaf pf (PInt z) = PInt z.
Proof.
  intros Hl Hwf. exists (<[l := map_leaves (normal_leaf pf) t]> h).
  split; [by apply format_filters_wf|]. split; [|done].
  rewrite (format_filters_wf pf _ l (map_leaves (normal_leaf pf) t)).
  - rewrite (map_leaves_idem _ _ (normal_leaf_idem pf)). by rewrite insert_insert_eq.
  - by rewrite lookup_insert_eq.
  - by apply map_leaves_wf.
Qed.

Lemma format_filters_idempotent_witness :
  exists h1,
    format_filters utc 1%positive {[ 1%positive := demo_filters ]} = (Ok 1%positive, h1)
    /\ format_filters utc 1%positive h1 = (Ok 1%positive, h1)
    /\ forall z, normal_leaf utc (PInt z) = PInt z.
Proof.
  apply (format_filters_idempotent utc {[ 1%positive := demo_filters ]}
           1%positive demo_filters).
  - reflexivity.
  - compute_done.
Defined.

(** ** [run] with a row limit *)

Lemma get_loop_stop (T : transport) (fuel : nat) (nrows : option Z)
    (ot ov data : pyval) (w : world) :
  py_truthy ov = false \/ (exists n, py_len data = Ok n /\ lt_nrows n nrows = Ok false) ->
  get_loop T fuel nrows ot ov data w = (Ok (Some data), w).
Proof.
  intros H. destruct fuel; simpl; unfold bind, lift, ret;
    (destruct H as [-> | (n & -> & Hn)]; [done|]);
    destruct (py_truthy ov); simpl; by rewrite ?Hn.
Qed.

Lemma post_loop_stop (T : transport) (fuel : nat) (l : loc) (nrows : option Z)
    (body : list (string * pyval)) (data : pyval) (w : world) :
  dict_get "paging" body = None
  \/ (exists n, py_len data = Ok n /\ lt_nrows n nrows = Ok false) ->
  post_loop T fuel l nrows (PDict body) data w = (Ok (Some data), w).
Proof.
  intros H. destruct fuel; simpl; unfold bind, lift, ret; simpl;
    (destruct H as [Hp | (n & -> & Hn)]; [by rewrite (has_key_none _ _ Hp)|]);
    destruct (has_key "paging" (fst <$> body)); simpl; by rewrite ?Hn.
Qed.

Lemma to_df_len (data : pyval) (rows : table) :
  to_df data = Ok rows -> exists n, py_len data = Ok n.
Proof. destruct data; try discriminate; simpl; eauto. Qed.

Lemma getitem_str_dict (p : pyval) (k : string) (v : pyval) :
  py_getitem p (PStr k) = Ok v -> exists body, p = PDict body /\ dict_get k body = Some v.
Proof.
  destruct p as [| | | | |body]; try discriminate. simpl.
  destruct (dict_get k body) as [x|] eqn:E; [|discriminate].
  intros [= ->]. eauto.
Qed.

Lemma lt_nrows_zero (n : nat) : lt_nrows n (Some 0) = Ok false.
Proof. unfold lt_nrows. by destruct (Z.ltb_spec (Z.of_nat n) 0) as [?|?]; [lia|]. Qed.

Lemma bind_deref {B} (l : loc) (k : pyval -> M world B) (h : heap)
    (log : list request) (v : pyval) :
  h !! l = Some v ->
  bind (on_heap (deref l)) k (mkworld h log) = k v (mkworld h log).
Proof. intros H. unfold bind, on_heap, deref. simpl. by rewrite H. Qed.

Lemma bind_fetch {B} (T : transport) (rq : request) (k : pyval -> M world B)
    (h : heap) (log : list request) (p : pyval) :
  T (length log) rq = Ok p ->
  bind (fetch T rq) k (mkworld h log) = k p (mkworld h (log ++ [rq])).
Proof. intros H. unfold bind, fetch. simpl. by rewrite H. Qed.

Lemma bind_format_filters {B} (pf : platform) (l : loc) (k : loc -> M world B)
    (h : heap) (log : list request) (t : pyval) :
  h !! l = Some t -> wf_filters t ->
  bind (on_heap (format_filters pf l)) k (mkworld h log)
  = k l (mkworld (<[l := map_leaves (normal_leaf pf) t]> h) log).
Proof.
  intros H Hwf. unfold bind, on_heap. simpl.
  by rewrite (format_filters_wf pf h l t H Hwf).
Qed.

(** C9, amended: with [nrows = 0], and a first response from which the
    rows can be read (under "results" in the POST branch, under the first
    key in the GET branch, where the cursor fields must be readable too)
    and made into a table, [run] issues exactly one request and returns a
    table without rows; filters that are given are a filter tree. *)
Theorem run_zero_limit (pf : platform) (T : transport) (fuel : nat) (l : loc)
    (w : world) (fv p data : pyval) (rows : table) :
  w_heap w !! l = Some fv ->
  (py_truthy fv = true -> wf_filters fv) ->
  (forall rq, T (length (w_log w)) rq = Ok p) ->
  (if py_truthy fv then py_getitem p (PStr "results") else first_value p) = Ok data ->
  (py_truthy fv = false -> exists c, get_offset_from_response p = Ok c) ->
  to_df data = Ok rows ->
  exists w' rq,
    run pf T fuel l (Some 0) w = (Ok (Some []), w') /\ w_log w' = (w_log w ++ [rq])%list.
Proof.
  intros Hl Hwf HT Hdata Hc Hdf. destruct w as [h log]. cbn [w_heap w_log] in *.
  destruct (to_df_len _ _ Hdf) as [n Hn].
  unfold run. rewrite (bind_deref _ _ _ _ _ Hl).
  destruct (py_truthy fv) eqn:Htr.
  - specialize (Hwf eq_refl).
    rewrite (bind_format_filters _ _ _ _ _ _ Hl Hwf).
    rewrite (bind_deref _ _ _ _ _ (lookup_insert_eq _ _ _)).
    rewrite (bind_fetch _ _ _ _ _ _ (HT _)).
    rewrite (bind_lift_ok _ _ _ _ Hdata).
    destruct (getitem_str_dict _ _ _ Hdata) as (body & -> & _).
    unfold bind at 1. rewrite post_loop_stop
      by (right; exists n; split; [done|apply lt_nrows_zero]).
    unfold finish, bind, lift, ret. rewrite Hdf. simpl. eauto.
  - destruct (Hc eq_refl) as [c Hc'].
    rewrite (bind_fetch _ _ _ _ _ _ (HT _)).
    rewrite (bind_lift_ok _ _ _ _ Hdata).
    rewrite (bind_lift_ok _ _ _ _ Hc'), (bind_lift_ok _ _ _ _ Hc').
    unfold bind at 1. rewrite get_loop_stop
      by (right; exists n; split; [done|apply lt_nrows_zero]).
    unfold finish, bind, lift, ret. rewrite Hdf. simpl. eauto.
Qed.

Lemma run_zero_limit_witness :
  exists w' rq,
    run utc (fun _ _ => Ok page_after) 5 1%positive (Some 0) (world_of demo_filters)
      = (Ok (Some []), w')
    /\ w_log w' = (w_log (world_of demo_filters) ++ [rq])%list.
Proof.
  apply (run_zero_limit utc (fun _ _ => Ok page_after) 5 1%positive
           (world_of demo_filters) demo_filters page_after (PList [row 1]) [row 1]).
  - reflexivity.
  - intros _. compute_done.
  - reflexivity.
  - reflexivity.
  - discriminate.
  - reflexivity.
Defined.

(** ** The fetches of [run] under a row limit *)

Lemma get_loop_step (T : transport) (fuel : nat) (n : Z) (ot ov : pyval)
    (acc : list pyval) (w : world) :
  py_truthy ov = true -> Z.of_nat (length acc) < n ->
  get_loop T (S fuel) (Some n) ot ov (PList acc) w
  = (partition <- fetch T (mkreq GET None (Some (ot, ov))) ;;
     page <- lift (first_value partition) ;;
     full_dataset' <- lift (list_extend (PList acc) page) ;;
     ot' <- lift (get_offset_from_response partition) ;;
     ov' <- lift (get_offset_from_response partition) ;;
     get_loop T fuel (Some n) (fst ot') (snd ov') full_dataset') w.
Proof.
  intros Htr Hlt. cbn [get_loop]. rewrite Htr.
  unfold bind at 1. unfold bind at 1. unfold lift at 1 2. cbn [py_len lt_nrows].
  by destruct (Z.ltb_spec (Z.of_nat (length acc)) n) as [_|?]; [|lia].
Qed.

Lemma forallb_app_true {A} (f : A -> bool) (l1 l2 : list A) :
  forallb f l1 = true -> forallb f l2 = true -> forallb f (l1 ++ l2) = true.
Proof. intros H1 H2. rewrite forallb_app. by rewrite H1, H2. Qed.

Lemma get_loop_bounded (T : transport) (n : Z) :
  get_pages T ->
  forall fuel acc ot ov h log,
    forallb is_record acc = true ->
    (Z.to_nat n - length acc <= fuel)%nat ->
    exists acc' log',
      get_loop T fuel (Some n) ot ov (PList acc) (mkworld h log)
        = (Ok (Some (PList acc')), mkworld h log')
      /\ forallb is_record acc' = true
      /\ (length log' <= length log + (Z.to_nat n - length acc))%nat.
Proof.
  intros HT. induction fuel as [|fuel IH]; intros acc ot ov h log Hrec Hfuel.
  - exists acc, log. rewrite get_loop_stop; [split; [done|split; [done|lia]]|].
    destruct (py_truthy ov); [right|by left].
    exists (length acc). split; [done|]. unfold lt_nrows.
    by destruct (Z.ltb_spec (Z.of_nat (length acc)) n) as [?|?]; [lia|].
  - destruct (py_truthy ov) eqn:Htr;
      [destruct (Z.ltb_spec (Z.of_nat (length acc)) n) as [Hlt|Hge]|].
    + rewrite (get_loop_step T fuel n ot ov acc _ Htr Hlt).
      destruct (HT (length log) (mkreq GET None (Some (ot, ov))))
        as (p & rows & c & Hp & Hfv & Hne & Hrows & Hc).
      rewrite (bind_fetch _ _ _ _ _ _ Hp).
      rewrite (bind_lift_ok _ _ _ _ Hfv).
      unfold bind at 1. unfold lift at 1. cbn [list_extend rbind py_iter].
      rewrite (bind_lift_ok _ _ _ _ Hc), (bind_lift_ok _ _ _ _ Hc).
      assert (0 < length rows)%nat as Hpos by (destruct rows; [done|simpl; lia]).
      destruct (IH (acc ++ rows) (fst c) (snd c) h
                  (log ++ [mkreq GET None (Some (ot, ov))]))
        as (acc' & log' & Hrun & Hrec' & Hlen).
      * by apply forallb_app_true.
      * rewrite length_app. lia.
      * exists acc', log'. split; [done|]. split; [done|].
        rewrite !length_app in Hlen. simpl in Hlen. lia.
    + exists acc, log. rewrite get_loop_stop; [split; [done|split; [done|lia]]|].
      right. exists (length acc). split; [done|]. unfold lt_nrows.
      by destruct (Z.ltb_spec (Z.of_nat (length acc)) n) as [?|?]; [lia|].
    + exists acc, log. rewrite get_loop_stop; [split; [done|split; [done|lia]]|].
      by left.
Qed.

Lemma post_loop_step (T : transport) (fuel : nat) (l : loc) (n : Z)
    (body : list (string * pyval)) (acc : list pyval) (w : world) :
  is_Some (dict_get "paging" body) -> Z.of_nat (length acc) < n ->
  post_loop T (S fuel) l (Some n) (PDict body) (PList acc) w
  = (fb <- on_heap (deref l) ;;
     paging <- lift (py_getitem (PDict body) (PStr "paging")) ;;
     next <- lift (py_getitem paging (PStr "next")) ;;
     after <- lift (py_getitem next (PStr "after")) ;;
     partition' <- fetch T (mkreq POST (Some fb) (Some (PStr "after", after))) ;;
     results <- lift (py_getitem partition' (PStr "results")) ;;
     full_dataset' <- lift (list_extend (PList acc) results) ;;
     post_loop T fuel l (Some n) partition' full_dataset') w.
Proof.
  intros [pg Hpg] Hlt. cbn [post_loop].
  unfold bind at 1. unfold lift at 1. cbn [py_keys].
  rewrite (has_key_some _ _ _ Hpg).
  unfold bind at 1. unfold bind at 1. unfold lift at 1 2. cbn [py_len lt_nrows].
  by destruct (Z.ltb_spec (Z.of_nat (length acc)) n) as [_|?]; [|lia].
Qed.

Lemma next_after_chain (body : list (string * pyval)) (tok : pyval) :
  next_after body = Some tok ->
  exists pg nx, py_getitem (PDict body) (PStr "paging") = Ok pg
                /\ py_getitem pg (PStr "next") = Ok nx
                /\ py_getitem nx (PStr "after") = Ok tok.
Proof.
  unfold next_after. simpl.
  destruct (dict_get "paging" body) as [[| | | | |pg]|]; try discriminate.
  destruct (dict_get "next" pg) as [[| | | | |nx]|] eqn:Hnx; try discriminate.
  intros Htok. exists (PDict pg), (PDict nx). simpl. by rewrite Hnx, Htok.
Qed.

Lemma post_loop_bounded (T : transport) (l : loc) (n : Z) :
  post_pages T ->
  forall fuel acc body h log,
    is_Some (h !! l) ->
    dict_get "paging" body = None \/ is_Some (next_after body) ->
    forallb is_record acc = true ->
    (Z.to_nat n - length acc <= fuel)%nat ->
    exists acc' log',
      post_loop T fuel l (Some n) (PDict body) (PList acc) (mkworld h log)
        = (Ok (Some (PList acc')), mkworld h log')
      /\ forallb is_record acc' = true
      /\ (length log' <= length log + (Z.to_nat n - length acc))%nat.
Proof.
  intros HT. induction fuel as [|fuel IH]; intros acc body h log [fb Hfb] Hpg Hrec Hfuel.
  - exists acc, log. rewrite post_loop_stop; [split; [done|split; [done|lia]]|].
    right. exists (length acc). split; [done|]. unfold lt_nrows.
    by destruct (Z.ltb_spec (Z.of_nat (length acc)) n) as [?|?]; [lia|].
  - destruct Hpg as [Hnone|[tok Htok]];
      [|destruct (Z.ltb_spec (Z.of_nat (length acc)) n) as [Hlt|Hge]].
    + exists acc, log. rewrite post_loop_stop; [split; [done|split; [done|lia]]|].
      by left.
    + destruct (next_after_chain body tok Htok) as (pg & nx & Hg1 & Hg2 & Hg3).
      rewrite (post_loop_step T fuel l n body acc).
      2:{ simpl in Hg1. destruct (dict_get "paging" body); [eauto|discriminate]. }
      2:{ done. }
      rewrite (bind_deref _ _ _ _ _ Hfb).
      rewrite (bind_lift_ok _ _ _ _ Hg1), (bind_lift_ok _ _ _ _ Hg2),
        (bind_lift_ok _ _ _ _ Hg3).
      destruct (HT (length log) (mkreq POST (Some fb) (Some (PStr "after", tok))))
        as (body' & rows & Hp & Hres & Hne & Hrows & Hpg').
      rewrite (bind_fetch _ _ _ _ _ _ Hp).
      unfold bind at 1. unfold lift at 1. cbn [py_getitem]. rewrite Hres.
      unfold bind at 1. unfold lift at 1. cbn [list_extend rbind py_iter].
      assert (0 < length rows)%nat as Hpos by (destruct rows; [done|simpl; lia]).
      destruct (IH (acc ++ rows) body' h
                  (log ++ [mkreq POST (Some fb) (Some (PStr "after", tok))]))
        as (acc' & log' & Hrun & Hrec' & Hlen); [eauto|done| | |].
      * by apply forallb_app_true.
      * rewrite length_app. lia.
      * exists acc', log'. split; [done|]. split; [done|].
        rewrite !length_app in Hlen. simpl in Hlen. lia.
    + exists acc, log. rewrite post_loop_stop; [split; [done|split; [done|lia]]|].
      right. exists (length acc). split; [done|]. unfold lt_nrows.
      by destruct (Z.ltb_spec (Z.of_nat (length acc)) n) as [?|?]; [lia|].
Qed.

Lemma to_df_records (rows : list pyval) :
  forallb is_record rows = true -> to_df (PList rows) = Ok rows.
Proof. intros H. simpl. by rewrite H. Qed.

(** C2, amended: the loops of [run] have no ceiling of their own; what ends
    them is the row limit or a response without a cursor.  When every page
    carries at least one row, a run with row limit [n] issues at most
    [max 1 n] requests and returns its table. *)
Theorem run_bounded_by_limit (pf : platform) (T : transport) (fuel : nat)
    (l : loc) (w : world) (fv : pyval) (n : Z) :
  w_heap w !! l = Some fv ->
  (if py_truthy fv then wf_filters fv /\ post_pages T else get_pages T) ->
  (Z.to_nat n <= fuel)%nat ->
  exists tbl w',
    run pf T fuel l (Some n) w = (Ok (Some tbl), w')
    /\ (length (w_log w') <= length (w_log w) + Nat.max 1 (Z.to_nat n))%nat.
Proof.
  intros Hl HT Hfuel. destruct w as [h log]. cbn [w_heap w_log] in *.
  unfold run. rewrite (bind_deref _ _ _ _ _ Hl).
  destruct (py_truthy fv) eqn:Htr.
  - destruct HT as [Hwf HT].
    rewrite (bind_format_filters _ _ _ _ _ _ Hl Hwf).
    rewrite (bind_deref _ _ _ _ _ (lookup_insert_eq _ _ _)).
    destruct (HT (length log) (mkreq POST (Some (map_leaves (normal_leaf pf) fv)) None))
      as (body & rows & Hp & Hres & Hne & Hrows & Hpg).
    rewrite (bind_fetch _ _ _ _ _ _ Hp).
    unfold bind at 1. unfold lift at 1. cbn [py_getitem]. rewrite Hres.
    assert (0 < length rows)%nat as Hpos by (destruct rows; [done|simpl; lia]).
    destruct (post_loop_bounded T l n HT fuel rows body
                (<[l := map_leaves (normal_leaf pf) fv]> h)
                (log ++ [mkreq POST (Some (map_leaves (normal_leaf pf) fv)) None]))
      as (acc' & log' & Hrun & Hrec' & Hlen);
      [by rewrite lookup_insert_eq|done|done|lia|].
    unfold bind at 1. rewrite Hrun.
    unfold finish, bind, lift, ret. rewrite (to_df_records acc' Hrec').
    eexists _, _. split; [reflexivity|]. cbn [w_log].
    rewrite length_app in Hlen. simpl in Hlen. lia.
  - destruct (HT (length log) (mkreq GET None None))
      as (p & rows & c & Hp & Hfv & Hne & Hrows & Hc).
    rewrite (bind_fetch _ _ _ _ _ _ Hp).
    rewrite (bind_lift_ok _ _ _ _ Hfv).
    rewrite (bind_lift_ok _ _ _ _ Hc), (bind_lift_ok _ _ _ _ Hc).
    assert (0 < length rows)%nat as Hpos by (destruct rows; [done|simpl; lia]).
    destruct (get_loop_bounded T n HT fuel rows (fst c) (snd c) h
                (log ++ [mkreq GET None None]))
      as (acc' & log' & Hrun & Hrec' & Hlen); [done|lia|].
    unfold bind at 1. rewrite Hrun.
    unfold finish, bind, lift, ret. rewrite (to_df_records acc' Hrec').
    eexists _, _. split; [reflexivity|]. cbn [w_log].
    rewrite length_app in Hlen. simpl in Hlen. lia.
Qed.

Lemma run_bounded_by_limit_witness :
  exists tbl w',
    run utc (fun _ _ => Ok page_offset) 3 1%positive (Some 3) (world_of (PDict []))
      = (Ok (Some tbl), w')
    /\ (length (w_log w') <= length (w_log (world_of (PDict []))) + Nat.max 1 (Z.to_nat 3))%nat.
Proof.
  apply (run_bounded_by_limit utc (fun _ _ => Ok page_offset) 3 1%positive
           (world_of (PDict [])) (PDict []) 3).
  - reflexivity.
  - simpl. intros k rq.
    exists page_offset, [row 1], (PStr "offset", PInt 100).
    repeat split; done.
  - simpl. lia.
Defined.

(** * Further properties of the code *)

(** ** [format_filters]: errors and what stays as it was *)





Lemma dict_get_set_ne {A} (k k' : string) (v : A) (d : list (string * A)) :
  k' <> k -> dict_get k' (dict_set k v d) = dict_get k' d.
Proof.
  intros Hne. induction d as [|[k0 v0] d IH]; simpl.
  - rewrite dict_get_cons. destruct (String.eqb_spec k k'); [congruence|done].
  - destruct (String.eqb_spec k0 k) as [->|].
    + rewrite !dict_get_cons. destruct (String.eqb_spec k k'); [congruence|done].
    + rewrite !dict_get_cons. by rewrite IH.
Qed.

Lemma seq_getitem_fmap (g : pyval -> pyval) (l : list pyval) (key : pyval) :
  seq_getitem (g <$> l) key
  = match seq_getitem l key with Ok v => Ok (g v) | Err e => Err e end.
Proof.
  destruct key as [|b|z| | |]; simpl; try done.
  - rewrite list_lookup_fmap. by destruct (l !! _).
  - rewrite length_fmap. destruct (norm_index (length l) z) as [i|]; [|done].
    rewrite list_lookup_fmap. by destruct (l !! i).
Qed.

Lemma seq_getitem_elem (l : list pyval) (key v : pyval) :
  seq_getitem l key = Ok v -> v ∈ l.
Proof.
  destruct key as [|b|z| | |]; simpl; try discriminate.
  - destruct (l !! _) as [x|] eqn:E; [|discriminate]. intros [= <-].
    by eapply list_elem_of_lookup_2.
  - destruct (norm_index (length l) z) as [i|]; [|discriminate].
    destruct (l !! i) as [x|] eqn:E; [|discriminate]. intros [= <-].
    by eapply list_elem_of_lookup_2.
Qed.

Lemma map_pred_keys (f : pyval -> pyval) (p : pyval) :
  py_iter (map_pred f p) = py_iter p.
Proof.
  destruct p as [| | | | |d]; try done. simpl. f_equal.
  rewrite <- list_fmap_compose. by apply list_fmap_ext.
Qed.

(** X2: on a filter tree [format_filters] changes leaves only.  Afterwards
    the caller's object has as many groups, every group has under each key
    other than "filters" what it had, and under "filters" as many
    predicates, each with the same fields in the same order. *)
Theorem format_filters_keeps_shape (pf : platform) (h : heap) (l : loc) (t : pyval) :
  h !! l = Some t -> wf_filters t ->
  exists h' t',
    format_filters pf l h = (Ok l, h') /\ h' !! l = Some t'
    /\ py_len t' = py_len t
    /\ (forall ix k, k <> "filters" ->
          rbind (py_getitem t' ix) (fun g => py_getitem g (PStr k))
          = rbind (py_getitem t ix) (fun g => py_getitem g (PStr k)))
    /\ (forall ix,
          rbind (py_getitem t' ix) (fun g => rbind (py_getitem g (PStr "filters")) py_len)
          = rbind (py_getitem t ix) (fun g => rbind (py_getitem g (PStr "filters")) py_len))
    /\ (forall ix jx,
          rbind (py_getitem t' ix) (fun g =>
            rbind (py_getitem g (PStr "filters")) (fun fs =>
              rbind (py_getitem fs jx) py_iter))
          = rbind (py_getitem t ix) (fun g =>
              rbind (py_getitem g (PStr "filters")) (fun fs =>
                rbind (py_getitem fs jx) py_iter))).
Proof.
  intros Hl Hwf.
  exists (<[l := map_leaves (normal_leaf pf) t]> h), (map_leaves (normal_leaf pf) t).
  split; [by apply format_filters_wf|]. split; [by rewrite lookup_insert_eq|].
  destruct t as [| | | |gs|]; try done. simpl in Hwf.
  cbn [map_leaves py_len py_getitem]. rewrite length_fmap. split; [done|].
  assert (forall ix g, seq_getitem gs ix = Ok g ->
            exists e ps, g = PDict e /\ dict_get "filters" e = Some (PList ps)
                         /\ Forall wf_pred ps) as Hg.
  { intros ix g Hix%seq_getitem_elem. apply wf_group_inv.
    rewrite Forall_forall in Hwf. by apply Hwf. }
  split; [|split].
  - intros ix k Hk. rewrite seq_getitem_fmap.
    destruct (seq_getitem gs ix) as [g|] eqn:Hix; [|done].
    destruct (Hg ix g Hix) as (e & ps & -> & He & _).
    cbn [rbind map_group]. rewrite He. cbn [py_getitem].
    by rewrite dict_get_set_ne.
  - intros ix. rewrite seq_getitem_fmap.
    destruct (seq_getitem gs ix) as [g|] eqn:Hix; [|done].
    destruct (Hg ix g Hix) as (e & ps & -> & He & _).
    cbn [rbind map_group]. rewrite He. cbn [py_getitem].
    rewrite dict_get_set_eq, He. cbn [rbind py_len]. by rewrite length_fmap.
  - intros ix jx. rewrite seq_getitem_fmap.
    destruct (seq_getitem gs ix) as [g|] eqn:Hix; [|done].
    destruct (Hg ix g Hix) as (e & ps & -> & He & _).
    cbn [rbind map_group]. rewrite He. cbn [py_getitem].
    rewrite dict_get_set_eq, He. cbn [rbind py_getitem]. rewrite seq_getitem_fmap.
    destruct (seq_getitem ps jx) as [p|]; [|done]. cbn [rbind].
    apply map_pred_keys.
Qed.

Lemma format_filters_keeps_shape_witness :
  exists h' t',
    format_filters utc 1%positive {[ 1%positive := demo_filters ]} = (Ok 1%positive, h')
    /\ h' !! 1%positive = Some t'
    /\ py_len t' = py_len demo_filters
    /\ (forall ix k, k <> "filters" ->
          rbind (py_getitem t' ix) (fun g => py_getitem g (PStr k))
          = rbind (py_getitem demo_filters ix) (fun g => py_getitem g (PStr k)))
    /\ (forall ix,
          rbind (py_getitem t' ix) (fun g => rbind (py_getitem g (PStr "filters")) py_len)
          = rbind (py_getitem demo_filters ix)
              (fun g => rbind (py_getitem g (PStr "filters")) py_len))
    /\ (forall ix jx,
          rbind (py_getitem t' ix) (fun g =>
            rbind (py_getitem g (PStr "filters")) (fun fs =>
              rbind (py_getitem fs jx) py_iter))
          = rbind (py_getitem demo_filters ix) (fun g =>
              rbind (py_getitem g (PStr "filters")) (fun fs =>
                rbind (py_getitem fs jx) py_iter))).
Proof.
  apply (format_filters_keeps_shape utc {[ 1%positive := demo_filters ]}
           1%positive demo_filters).
  - reflexivity.
  - compute_done.
Defined.

Lemma length_list_ascii (s : string) :
  length (list_ascii_of_string s) = String.length s.
Proof. induction s as [|c s IH]; simpl; [done|by rewrite IH]. Qed.

(** X3: a leaf that [format_filters] has changed was a string of exactly
    ten characters and has become an integer, a whole number of seconds in
    milliseconds; strings of another length (dates written without zero
    padding among them) and values of other types stay as they are. *)
Theorem format_filters_rewrites_dates_only (pf : platform) (h : heap) (l : loc)
    (t : pyval) :
  h !! l = Some t -> wf_filters t ->
  exists h' t',
    format_filters pf l h = (Ok l, h') /\ h' !! l = Some t'
    /\ forall i j k v v',
         read_leaf t i j k = Ok v -> read_leaf t' i j k = Ok v' -> v' <> v ->
         exists s z, v = PStr s /\ String.length s = 10%nat /\ v' = PInt (z * 1000).
Proof.
  intros Hl Hwf.
  exists (<[l := map_leaves (normal_leaf pf) t]> h), (map_leaves (normal_leaf pf) t).
  split; [by apply format_filters_wf|]. split; [by rewrite lookup_insert_eq|].
  intros i j k v v' Hv Hv' Hne.
  rewrite (read_leaf_map_leaves (normal_leaf pf) t i j k v Hwf Hv) in Hv'.
  injection Hv' as <-.
  destruct (normal_leaf_changes pf v Hne) as (s & dt & z & -> & Hiso & _ & Hnl).
  exists s, z. split; [done|]. split; [|done].
  unfold date_fromisoformat in Hiso.
  destruct (Nat.eqb_spec (length (list_ascii_of_string s)) 10) as [Hlen|];
    [|discriminate].
  by rewrite <- length_list_ascii.
Qed.

Lemma format_filters_rewrites_dates_only_witness :
  exists h' t',
    format_filters utc 1%positive {[ 1%positive := demo_filters ]} = (Ok 1%positive, h')
    /\ h' !! 1%positive = Some t'
    /\ forall i j k v v',
         read_leaf demo_filters i j k = Ok v -> read_leaf t' i j k = Ok v' -> v' <> v ->
         exists s z, v = PStr s /\ String.length s = 10%nat /\ v' = PInt (z * 1000).
Proof.
  apply (format_filters_rewrites_dates_only utc {[ 1%positive := demo_filters ]}
           1%positive demo_filters).
  - reflexivity.
  - compute_done.
Defined.

(** ** [date_to_unixtimestamp]: the order of dates *)

Lemma days_before_year_succ (y : Z) :
  1 <= y ->
  days_before_year (y + 1) = days_before_year y + (if is_leap y then 366 else 365).
Proof.
  intros Hy. unfold days_before_year, is_leap.
  replace (y + 1 - 1) with y by lia.
  destruct (Z.eqb_spec (y mod 4) 0) as [H4|H4];
    destruct (Z.eqb_spec (y mod 100) 0) as [H100|H100];
    destruct (Z.eqb_spec (y mod 400) 0) as [H400|H400]; simpl;
    revert H4 H100 H400; Z.div_mod_to_equations; lia.
Qed.

Lemma days_before_year_mono (y1 y2 : Z) :
  1 <= y1 -> y1 <= y2 -> days_before_year y1 <= days_before_year y2.
Proof.
  intros H1 H12. replace y2 with (y1 + Z.of_nat (Z.to_nat (y2 - y1))) by lia.
  induction (Z.to_nat (y2 - y1)) as [|n IH].
  - by rewrite Z.add_0_r.
  - replace (y1 + Z.of_nat (S n)) with (y1 + Z.of_nat n + 1) by lia.
    rewrite days_before_year_succ by lia. destruct (is_leap _); lia.
Qed.

Lemma month_cases (m : Z) :
  1 <= m <= 12 ->
  m = 1 \/ m = 2 \/ m = 3 \/ m = 4 \/ m = 5 \/ m = 6 \/ m = 7 \/ m = 8 \/ m = 9
  \/ m = 10 \/ m = 11 \/ m = 12.
Proof. lia. Qed.

Lemma days_before_month_next (y m1 m2 : Z) :
  1 <= m1 -> m1 < m2 -> m2 <= 12 ->
  days_before_month y m1 + days_in_month y m1 <= days_before_month y m2.
Proof.
  intros H1 H12 H2.
  destruct (month_cases m1 ltac:(lia)) as [->|[->|[->|[->|[->|[->|[->|[->|[->|[->|[->| ->]]]]]]]]]]];
  destruct (month_cases m2 ltac:(lia)) as [->|[->|[->|[->|[->|[->|[->|[->|[->|[->|[->| ->]]]]]]]]]]];
  try lia; unfold days_before_month, days_in_month; simpl; destruct (is_leap y); simpl; lia.
Qed.

Lemma days_in_year_bound (y m : Z) :
  1 <= m <= 12 ->
  0 <= days_before_month y m
  /\ days_before_month y m + days_in_month y m <= (if is_leap y then 366 else 365).
Proof.
  intros Hm.
  destruct (month_cases m Hm) as [->|[->|[->|[->|[->|[->|[->|[->|[->|[->|[->| ->]]]]]]]]]]];
  unfold days_before_month, days_in_month; simpl; destruct (is_leap y); simpl; lia.
Qed.

Lemma new_date_valid (y m d : Z) (dt : date) :
  new_date y m d = Ok dt ->
  dt = mkdate y m d /\ 1 <= y /\ 1 <= m <= 12 /\ 1 <= d <= days_in_month y m.
Proof.
  unfold new_date.
  destruct ((1 <=? y) && (y <=? 9999) && (1 <=? m) && (m <=? 12) && (1 <=? d)
            && (d <=? days_in_month y m)) eqn:E; [|discriminate].
  intros [= <-].
  repeat (apply andb_true_iff in E as [E ?%Z.leb_le]). apply Z.leb_le in E.
  split; [reflexivity | lia].
Qed.

Lemma strptime_valid (v : pyval) (dt : date) :
  strptime_Ymd v = Ok dt ->
  1 <= year dt /\ 1 <= month dt <= 12
  /\ 1 <= day dt <= days_in_month (year dt) (month dt).
Proof.
  destruct v as [| | |s| |]; try discriminate. unfold strptime_Ymd.
  destruct (regex_Ymd (list_ascii_of_string s)) as [[[[y m] d] [|? ?]]|];
    try discriminate.
  intros (-> & ? & ? & ?)%new_date_valid. simpl. lia.
Qed.

Lemma ymd_to_ord_lt (d1 d2 : date) :
  1 <= year d1 -> 1 <= month d1 <= 12 ->
  1 <= day d1 <= days_in_month (year d1) (month d1) ->
  1 <= month d2 <= 12 -> 1 <= day d2 ->
  date_lt d1 d2 ->
  ymd_to_ord (year d1) (month d1) (day d1) < ymd_to_ord (year d2) (month d2) (day d2).
Proof.
  intros Hy1 Hm1 Hd1 Hm2 Hd2 Hlt. unfold ymd_to_ord.
  destruct Hlt as [Hy|[Hy [Hm|[Hm Hd]]]].
  - pose proof (days_in_year_bound (year d1) (month d1) Hm1) as [_ Hb].
    pose proof (days_in_year_bound (year d2) (month d2) Hm2) as [Hb2 _].
    pose proof (days_before_year_succ (year d1) Hy1) as Hs.
    pose proof (days_before_year_mono (year d1 + 1) (year d2)) as Hmono.
    destruct (is_leap (year d1)); lia.
  - rewrite <- Hy.
    pose proof (days_before_month_next (year d1) (month d1) (month d2)). lia.
  - rewrite <- Hy, <- Hm. lia.
Qed.

Lemma wall_seconds_after_day_one (d : date) :
  1 <= month d <= 12 -> 1 <= day d ->
  date_lt (mkdate 1 1 1) d ->
  min_wall <= wall_seconds d.
Proof.
  intros Hm Hd Hlt.
  pose proof (ymd_to_ord_lt (mkdate 1 1 1) d) as H. simpl in H.
  specialize (H ltac:(lia) ltac:(lia) ltac:(unfold days_in_month; simpl; lia)
                Hm Hd Hlt).
  unfold wall_seconds, min_wall.
  change (ymd_to_ord 1 1 1) with 1 in H. lia.
Qed.

Lemma date_lt_trans_day_one (d1 d2 : date) :
  date_lt (mkdate 1 1 1) d1 -> date_lt d1 d2 -> date_lt (mkdate 1 1 1) d2.
Proof. unfold date_lt. simpl. lia. Qed.

(** CPython converts no time of the first day of year 1. *)
Lemma date_to_unixtimestamp_day_one (east : Z) :
  date_to_unixtimestamp (fixed_offset east) (PStr "0001-01-01") = Err ValueError.
Proof. reflexivity. Qed.

(** A process on UTC gives the midnight UTC of the specification for
    every date after 0001-01-01. *)
Lemma normal_leaf_utc_after_day_one (v : pyval) (dt : date) :
  date_fromisoformat v = Ok dt ->
  date_lt (mkdate 1 1 1) dt ->
  normal_leaf utc v = normal_leaf_utc v.
Proof.
  intros Hd Hlt. apply normal_leaf_utc_eq. intros dt' Hd'.
  rewrite Hd in Hd'. injection Hd' as <-.
  destruct (strptime_valid _ _ (strptime_of_iso _ _ Hd)) as (_ & Hm & Hday).
  pose proof (wall_seconds_after_day_one dt Hm ltac:(lia) Hlt).
  cbn [utc local_timestamp].
  by destruct (Z.ltb_spec (wall_seconds dt) min_wall) as [?|_]; [lia|].
Qed.

(** X4: [date_to_unixtimestamp] keeps the order of dates.  On a platform
    with a constant offset from UTC of less than a day, two texts that
    [strptime] reads as dates after 0001-01-01 (which CPython does not
    convert), the second for a later calendar date, are both converted,
    and the second timestamp is at least one day (86400000 ms) greater. *)
Theorem date_to_unixtimestamp_monotone (east : Z) (v1 v2 : pyval) (d1 d2 : date) :
  -86400 < east < 86400 ->
  strptime_Ymd v1 = Ok d1 ->
  strptime_Ymd v2 = Ok d2 ->
  date_lt (mkdate 1 1 1) d1 ->
  date_lt d1 d2 ->
  exists a b,
    date_to_unixtimestamp (fixed_offset east) v1 = Ok (PInt a)
    /\ date_to_unixtimestamp (fixed_offset east) v2 = Ok (PInt b)
    /\ a + 86400000 <= b.
Proof.
  intros _ H1 H2 Hone Hlt. unfold date_to_unixtimestamp. rewrite H1, H2.
  destruct (strptime_valid _ _ H1) as (Hy1 & Hm1 & Hd1).
  destruct (strptime_valid _ _ H2) as (Hy2 & Hm2 & Hd2).
  pose proof (wall_seconds_after_day_one d1 Hm1 ltac:(lia) Hone) as Hw1.
  pose proof (wall_seconds_after_day_one d2 Hm2 ltac:(lia)
                (date_lt_trans_day_one d1 d2 Hone Hlt)) as Hw2.
  cbn [fixed_offset local_timestamp].
  destruct (Z.ltb_spec (wall_seconds d1) min_wall) as [?|_]; [lia|].
  destruct (Z.ltb_spec (wall_seconds d2) min_wall) as [?|_]; [lia|].
  eexists _, _. split; [reflexivity|]. split; [reflexivity|].
  pose proof (ymd_to_ord_lt d1 d2 Hy1 Hm1 Hd1 Hm2 ltac:(lia) Hlt).
  unfold wall_seconds. lia.
Qed.

Lemma date_to_unixtimestamp_monotone_witness :
  exists a b,
    date_to_unixtimestamp (fixed_offset 3600) (PStr "2023-02-28") = Ok (PInt a)
    /\ date_to_unixtimestamp (fixed_offset 3600) (PStr "2023-3-1") = Ok (PInt b)
    /\ a + 86400000 <= b.
Proof.
  apply (date_to_unixtimestamp_monotone 3600 (PStr "2023-02-28") (PStr "2023-3-1")
           (mkdate 2023 2 28) (mkdate 2023 3 1)).
  - lia.
  - reflexivity.
  - reflexivity.
  - left. simpl. lia.
  - right. simpl. split; [reflexivity|]. left. lia.
Defined.

(** ** [run]: a single page, failures, and the size of the table *)

(** X5: in the GET branch a first response whose cursor is absent or falsy
    (no "paging" and no "offset" key, or an offset of 0, "" or null) ends
    the run after that one request; the table holds the rows of the page
    cut to [nrows], all of them for [nrows = None]. *)
Theorem run_get_single_page (pf : platform) (T : transport) (fuel : nat) (l : loc)
    (w : world) (fv p data : pyval) (c : pyval * pyval) (rows : table)
    (nrows : option Z) :
  w_heap w !! l = Some fv ->
  py_truthy fv = false ->
  T (length (w_log w)) (mkreq GET None None) = Ok p ->
  first_value p = Ok data ->
  get_offset_from_response p = Ok c ->
  py_truthy (snd c) = false ->
  to_df data = Ok rows ->
  run pf T fuel l nrows w
  = (Ok (Some (df_head rows nrows)),
     mkworld (w_heap w) (w_log w ++ [mkreq GET None None])).
Proof.
  intros Hl Htr HT Hdata Hc Hfalsy Hdf. destruct w as [h log].
  cbn [w_heap w_log] in *.
  unfold run. rewrite (bind_deref _ _ _ _ _ Hl), Htr.
  rewrite (bind_fetch _ _ _ _ _ _ HT).
  rewrite (bind_lift_ok _ _ _ _ Hdata).
  rewrite (bind_lift_ok _ _ _ _ Hc), (bind_lift_ok _ _ _ _ Hc).
  unfold bind at 1. rewrite get_loop_stop by (by left).
  unfold finish, bind, lift, ret. by rewrite Hdf.
Qed.

Lemma run_get_single_page_witness :
  run utc (fun _ _ => Ok (PDict [("results", PList [row 1; row 2]); ("offset", PInt 0)]))
      0 1%positive None (world_of (PDict []))
  = (Ok (Some (df_head [row 1; row 2] None)),
     mkworld (w_heap (world_of (PDict [])))
             (w_log (world_of (PDict [])) ++ [mkreq GET None None])).
Proof.
  apply (run_get_single_page utc _ 0 1%positive (world_of (PDict [])) (PDict [])
           (PDict [("results", PList [row 1; row 2]); ("offset", PInt 0)])
           (PList [row 1; row 2]) (PStr "offset", PInt 0) [row 1; row 2] None);
    reflexivity.
Defined.

(** X6: in the POST branch [run] rewrites the caller's filters in place
    before the first request and sends the rewritten filters as the body;
    a first response without the key "paging" ends the run after that one
    request, with the rows under "results" cut to [nrows]. *)
Theorem run_post_single_page (pf : platform) (T : transport) (fuel : nat) (l : loc)
    (w : world) (fv data : pyval) (body : list (string * pyval)) (rows : table)
    (nrows : option Z) :
  w_heap w !! l = Some fv ->
  py_truthy fv = true ->
  wf_filters fv ->
  T (length (w_log w)) (mkreq POST (Some (map_leaves (normal_leaf pf) fv)) None)
    = Ok (PDict body) ->
  dict_get "results" body = Some data ->
  dict_get "paging" body = None ->
  to_df data = Ok rows ->
  run pf T fuel l nrows w
  = (Ok (Some (df_head rows nrows)),
     mkworld (<[l := map_leaves (normal_leaf pf) fv]> (w_heap w))
             (w_log w ++ [mkreq POST (Some (map_leaves (normal_leaf pf) fv)) None])).
Proof.
  intros Hl Htr Hwf HT Hdata Hpg Hdf. destruct w as [h log].
  cbn [w_heap w_log] in *.
  unfold run. rewrite (bind_deref _ _ _ _ _ Hl), Htr.
  rewrite (bind_format_filters _ _ _ _ _ _ Hl Hwf).
  rewrite (bind_deref _ _ _ _ _ (lookup_insert_eq _ _ _)).
  rewrite (bind_fetch _ _ _ _ _ _ HT).
  unfold bind at 1. unfold lift at 1. cbn [py_getitem]. rewrite Hdata.
  unfold bind at 1. rewrite post_loop_stop by (by left).
  unfold finish, bind, lift, ret. by rewrite Hdf.
Qed.

Lemma run_post_single_page_witness :
  run utc (fun _ _ => Ok (PDict [("results", PList [row 1; row 2])]))
      0 1%positive None (world_of demo_filters)
  = (Ok (Some (df_head [row 1; row 2] None)),
     mkworld (<[1%positive := map_leaves (normal_leaf utc) demo_filters]>
                (w_heap (world_of demo_filters)))
             (w_log (world_of demo_filters)
              ++ [mkreq POST (Some (map_leaves (normal_leaf utc) demo_filters)) None])).
Proof.
  apply (run_post_single_page utc _ 0 1%positive (world_of demo_filters) demo_filters
           (PList [row 1; row 2]) [("results", PList [row 1; row 2])]
           [row 1; row 2] None); try reflexivity.
  compute_done.
Defined.

(** X7: with a negative row limit neither loop is entered: [run] issues
    one request, and the table is the first page cut by [df[:nrows]], which
    drops the last [-nrows] rows of the page. *)
Theorem run_negative_limit (pf : platform) (T : transport) (fuel : nat) (l : loc)
    (w : world) (fv p data : pyval) (rows : table) (n : Z) :
  n < 0 ->
  w_heap w !! l = Some fv ->
  (py_truthy fv = true -> wf_filters fv) ->
  (forall rq, T (length (w_log w)) rq = Ok p) ->
  (if py_truthy fv then py_getitem p (PStr "results") else first_value p) = Ok data ->
  (py_truthy fv = false -> exists c, get_offset_from_response p = Ok c) ->
  to_df data = Ok rows ->
  exists w' rq,
    run pf T fuel l (Some n) w
      = (Ok (Some (take (length rows - Z.to_nat (- n)) rows)), w')
    /\ w_log w' = w_log w ++ [rq].
Proof.
  intros Hn0 Hl Hwf HT Hdata Hc Hdf. destruct w as [h log]. cbn [w_heap w_log] in *.
  destruct (to_df_len _ _ Hdf) as [len Hlen].
  assert (lt_nrows len (Some n) = Ok false) as Hstop.
  { unfold lt_nrows. by destruct (Z.ltb_spec (Z.of_nat len) n) as [?|?]; [lia|]. }
  assert (df_head rows (Some n) = take (length rows - Z.to_nat (- n)) rows) as Hhead.
  { unfold df_head. by destruct (Z.ltb_spec n 0) as [?|?]; [|lia]. }
  unfold run. rewrite (bind_deref _ _ _ _ _ Hl).
  destruct (py_truthy fv) eqn:Htr.
  - specialize (Hwf eq_refl).
    rewrite (bind_format_filters _ _ _ _ _ _ Hl Hwf).
    rewrite (bind_deref _ _ _ _ _ (lookup_insert_eq _ _ _)).
    rewrite (bind_fetch _ _ _ _ _ _ (HT _)).
    rewrite (bind_lift_ok _ _ _ _ Hdata).
    destruct (getitem_str_dict _ _ _ Hdata) as (body & -> & _).
    unfold bind at 1. rewrite post_loop_stop by (right; by exists len).
    unfold finish, bind, lift, ret. rewrite Hdf, Hhead. simpl. eauto.
  - destruct (Hc eq_refl) as [c Hc'].
    rewrite (bind_fetch _ _ _ _ _ _ (HT _)).
    rewrite (bind_lift_ok _ _ _ _ Hdata).
    rewrite (bind_lift_ok _ _ _ _ Hc'), (bind_lift_ok _ _ _ _ Hc').
    unfold bind at 1. rewrite get_loop_stop by (right; by exists len).
    unfold finish, bind, lift, ret. rewrite Hdf, Hhead. simpl. eauto.
Qed.

Lemma run_negative_limit_witness :
  exists w' rq,
    run utc (fun _ _ => Ok (PDict [("results", PList [row 1; row 2; row 3]);
                                   ("offset", PInt 9)]))
        4 1%positive (Some (-1)) (world_of (PDict []))
      = (Ok (Some (take (length [row 1; row 2; row 3] - Z.to_nat (- -1))
                     [row 1; row 2; row 3])), w')
    /\ w_log w' = w_log (world_of (PDict [])) ++ [rq].
Proof.
  apply (run_negative_limit utc _ 4 1%positive (world_of (PDict [])) (PDict [])
           (PDict [("results", PList [row 1; row 2; row 3]); ("offset", PInt 9)])
           (PList [row 1; row 2; row 3]) [row 1; row 2; row 3] (-1)).
  - lia.
  - reflexivity.
  - discriminate.
  - reflexivity.
  - reflexivity.
  - intros _. by eexists.
  - reflexivity.
Defined.

(** ** [run]: what a result implies *)

Lemma bind_inv_ok {St A B} (m : M St A) (k : A -> M St B) (s s' : St) (b : B) :
  bind m k s = (Ok b, s') ->
  exists a s1, m s = (Ok a, s1) /\ k a s1 = (Ok b, s').
Proof.
  unfold bind. destruct (m s) as [[a|e] s1]; [eauto|discriminate].
Qed.

Lemma lift_inv {St A} (r : result A) (s s1 : St) (a : A) :
  lift r s = (Ok a, s1) -> r = Ok a /\ s1 = s.
Proof. unfold lift. by intros [= -> ->]. Qed.

Lemma ret_inv {St A} (x a : A) (s s1 : St) :
  ret x s = (Ok a, s1) -> a = x /\ s1 = s.
Proof. unfold ret. by intros [= -> ->]. Qed.

Lemma fetch_inv (T : transport) (rq : request) (w w1 : world) (p : pyval) :
  fetch T rq w = (Ok p, w1) ->
  T (length (w_log w)) rq = Ok p /\ w1 = mkworld (w_heap w) (w_log w ++ [rq]).
Proof. unfold fetch. by intros [= -> <-]. Qed.

Lemma on_heap_log {A} (m : M heap A) (w w1 : world) (r : result A) :
  on_heap m w = (r, w1) -> w_log w1 = w_log w.
Proof. unfold on_heap. destruct (m (w_heap w)). by intros [= _ <-]. Qed.

Lemma get_test_inv (ov data : pyval) (nrows : option Z) (w w1 : world) (go : bool) :
  (if py_truthy ov
   then n <- lift (py_len data) ;; lift (lt_nrows n nrows)
   else ret false) w = (Ok go, w1) ->
  w1 = w.
Proof.
  destruct (py_truthy ov).
  - intros (n & s1 & (_ & ->)%lift_inv & (_ & ->)%lift_inv)%bind_inv_ok. done.
  - by intros (_ & ->)%ret_inv.
Qed.

Lemma post_test_inv (ks : list string) (data : pyval) (nrows : option Z)
    (w w1 : world) (go : bool) :
  (if has_key "paging" ks
   then n <- lift (py_len data) ;; lift (lt_nrows n nrows)
   else ret false) w = (Ok go, w1) ->
  w1 = w.
Proof.
  destruct (has_key "paging" ks).
  - intros (n & s1 & (_ & ->)%lift_inv & (_ & ->)%lift_inv)%bind_inv_ok. done.
  - by intros (_ & ->)%ret_inv.
Qed.

Lemma answered_snoc (T : transport) (base : nat) (log : list request)
    (rq : request) (p : pyval) :
  answered T base log -> T (length log) rq = Ok p -> answered T base (log ++ [rq]).
Proof.
  intros Hlog Hp k rq' Hk Hrq'.
  apply lookup_app_Some in Hrq' as [Hin|[Hge Hin]]; [by eapply Hlog|].
  apply list_lookup_singleton_Some in Hin as [Hk0 <-].
  replace k with (length log) by lia. eauto.
Qed.

Lemma get_loop_answered (T : transport) (base fuel : nat) (nrows : option Z)
    (ot ov data : pyval) (w w' : world) (r : option pyval) :
  get_loop T fuel nrows ot ov data w = (Ok r, w') ->
  answered T base (w_log w) -> answered T base (w_log w').
Proof.
  revert ot ov data w. induction fuel as [|fuel IH]; intros ot ov data w H Hlog.
  - cbn [get_loop] in H.
    apply bind_inv_ok in H as (go & w1 & ->%get_test_inv & H).
    destruct go; apply ret_inv in H as [_ ->]; done.
  - cbn [get_loop] in H.
    apply bind_inv_ok in H as (go & w1 & ->%get_test_inv & H).
    destruct go; [|apply ret_inv in H as [_ ->]; done].
    apply bind_inv_ok in H as (p & w1 & [Hp ->]%fetch_inv & H).
    apply bind_inv_ok in H as (page & w1 & [_ ->]%lift_inv & H).
    apply bind_inv_ok in H as (fd & w1 & [_ ->]%lift_inv & H).
    apply bind_inv_ok in H as (c1 & w1 & [_ ->]%lift_inv & H).
    apply bind_inv_ok in H as (c2 & w1 & [_ ->]%lift_inv & H).
    apply IH in H; [done|]. cbn [w_log]. by eapply answered_snoc.
Qed.

Lemma post_loop_answered (T : transport) (base fuel : nat) (l : loc)
    (nrows : option Z) (partition data : pyval) (w w' : world) (r : option pyval) :
  post_loop T fuel l nrows partition data w = (Ok r, w') ->
  answered T base (w_log w) -> answered T base (w_log w').
Proof.
  revert partition data w. induction fuel as [|fuel IH]; intros partition data w H Hlog.
  - cbn [post_loop] in H.
    apply bind_inv_ok in H as (ks & w1 & [_ ->]%lift_inv & H).
    apply bind_inv_ok in H as (go & w1 & ->%post_test_inv & H).
    destruct go; apply ret_inv in H as [_ ->]; done.
  - cbn [post_loop] in H.
    apply bind_inv_ok in H as (ks & w1 & [_ ->]%lift_inv & H).
    apply bind_inv_ok in H as (go & w1 & ->%post_test_inv & H).
    destruct go; [|apply ret_inv in H as [_ ->]; done].
    apply bind_inv_ok in H as (fb & w1 & Hfb%on_heap_log & H).
    apply bind_inv_ok in H as (pg & w2 & [_ ->]%lift_inv & H).
    apply bind_inv_ok in H as (nx & w2 & [_ ->]%lift_inv & H).
    apply bind_inv_ok in H as (af & w2 & [_ ->]%lift_inv & H).
    apply bind_inv_ok in H as (p & w2 & [Hp ->]%fetch_inv & H).
    apply bind_inv_ok in H as (res & w2 & [_ ->]%lift_inv & H).
    apply bind_inv_ok in H as (fd & w2 & [_ ->]%lift_inv & H).
    apply IH in H; [done|]. cbn [w_log]. rewrite Hfb in *.
    by eapply answered_snoc.
Qed.

Lemma finish_inv (nrows : option Z) (r : option pyval) (w w' : world)
    (out : option table) :
  finish nrows r w = (Ok out, w') ->
  w' = w /\ match out with
            | Some tbl => exists data df, r = Some data /\ to_df data = Ok df
                                          /\ tbl = df_head df nrows
            | None => r = None
            end.
Proof.
  destruct r as [data|]; simpl.
  - intros (df & w1 & [Hdf ->]%lift_inv & [-> ->]%ret_inv)%bind_inv_ok.
    split; [done|]. eauto.
  - by intros [-> ->]%ret_inv.
Qed.

(** X8: a failed fetch is never followed by a result.  Whenever [run]
    returns (or is still in its loop when the fuel ends), every request it
    has issued was answered by the transport without an exception. *)
Theorem run_all_or_nothing (pf : platform) (T : transport) (fuel : nat) (l : loc)
    (nrows : option Z) (w w' : world) (r : option table) :
  run pf T fuel l nrows w = (Ok r, w') ->
  forall k rq, (length (w_log w) <= k)%nat -> w_log w' !! k = Some rq ->
               exists p, T k rq = Ok p.
Proof.
  intros H.
  assert (answered T (length (w_log w)) (w_log w)) as Hlog.
  { intros k rq Hk Hrq. apply lookup_lt_Some in Hrq. lia. }
  unfold run in H.
  apply bind_inv_ok in H as (fv & w1 & Hw1 & H).
  pose proof (on_heap_log _ _ _ _ Hw1) as Hl1.
  destruct (py_truthy fv).
  - apply bind_inv_ok in H as (ff & w2 & Hw2%on_heap_log & H).
    apply bind_inv_ok in H as (fb & w3 & Hw3%on_heap_log & H).
    apply bind_inv_ok in H as (p & w4 & [Hp ->]%fetch_inv & H).
    apply bind_inv_ok in H as (fd & w4 & [_ ->]%lift_inv & H).
    apply bind_inv_ok in H as (r0 & w4 & Hloop & H).
    apply finish_inv in H as [-> _].
    apply (post_loop_answered T (length (w_log w))) in Hloop; [exact Hloop|].
    cbn [w_log]. rewrite Hw3, Hw2, Hl1 in *. by eapply answered_snoc.
  - apply bind_inv_ok in H as (p & w4 & [Hp ->]%fetch_inv & H).
    apply bind_inv_ok in H as (fd & w4 & [_ ->]%lift_inv & H).
    apply bind_inv_ok in H as (c1 & w4 & [_ ->]%lift_inv & H).
    apply bind_inv_ok in H as (c2 & w4 & [_ ->]%lift_inv & H).
    apply bind_inv_ok in H as (r0 & w4 & Hloop & H).
    apply finish_inv in H as [-> _].
    apply (get_loop_answered T (length (w_log w))) in Hloop; [exact Hloop|].
    cbn [w_log]. rewrite Hl1 in *. by eapply answered_snoc.
Qed.

Lemma run_all_or_nothing_witness :
  exists p, (fun (_ : nat) (_ : request) => Ok page_offset) 0%nat (mkreq GET None None)
            = Ok p.
Proof.
  apply (run_all_or_nothing utc (fun _ _ => Ok page_offset) 3 1%positive (Some 1)
           (world_of (PDict []))
           (mkworld {[ 1%positive := PDict [] ]} [mkreq GET None None])
           (Some [row 1]) eq_refl 0%nat (mkreq GET None None)).
  - simpl. lia.
  - reflexivity.
Defined.

(** X9: the table never has more rows than the limit.  For a limit
    [nrows >= 0], whatever the transport answers, a table that [run]
    returns has at most [nrows] rows. *)
Theorem run_at_most_nrows (pf : platform) (T : transport) (fuel : nat) (l : loc)
    (n : Z) (w w' : world) (tbl : table) :
  0 <= n ->
  run pf T fuel l (Some n) w = (Ok (Some tbl), w') ->
  (length tbl <= Z.to_nat n)%nat.
Proof.
  intros Hn H.
  assert (exists df, tbl = df_head df (Some n)) as [df ->].
  { unfold run in H.
    apply bind_inv_ok in H as (fv & w1 & _ & H).
    destruct (py_truthy fv).
    - apply bind_inv_ok in H as (ff & w2 & _ & H).
      apply bind_inv_ok in H as (fb & w3 & _ & H).
      apply bind_inv_ok in H as (p & w4 & _ & H).
      apply bind_inv_ok in H as (fd & w5 & _ & H).
      apply bind_inv_ok in H as (r0 & w6 & _ & H).
      apply finish_inv in H as [_ (data & df & _ & _ & ->)]. eauto.
    - apply bind_inv_ok in H as (p & w4 & _ & H).
      apply bind_inv_ok in H as (fd & w5 & _ & H).
      apply bind_inv_ok in H as (c1 & w6 & _ & H).
      apply bind_inv_ok in H as (c2 & w7 & _ & H).
      apply bind_inv_ok in H as (r0 & w8 & _ & H).
      apply finish_inv in H as [_ (data & df & _ & _ & ->)]. eauto. }
  unfold df_head. destruct (Z.ltb_spec n 0) as [?|_]; [lia|].
  rewrite length_take. lia.
Qed.

Lemma run_at_most_nrows_witness :
  (length [row 1; row 1] <= Z.to_nat 2)%nat.
Proof.
  apply (run_at_most_nrows utc (fun _ _ => Ok page_offset) 3 1%positive 2
           (world_of (PDict []))
           (mkworld {[ 1%positive := PDict [] ]}
              [mkreq GET None None; mkreq GET None (Some (PStr "offset", PInt 100))])
           [row 1; row 1]).
  - lia.
  - reflexivity.
Defined.

(** ** [run]: the rows of several pages *)

Lemma fetched_rows_S (rowsof : nat -> list pyval) (m : nat) :
  fetched_rows rowsof (S m) = fetched_rows rowsof m ++ rowsof m.
Proof.
  unfold fetched_rows. rewrite seq_S, fmap_app, concat_app. simpl.
  by rewrite app_nil_r.
Qed.

Lemma fetched_rows_records (rowsof : nat -> list pyval) (m : nat) :
  (forall k, forallb is_record (rowsof k) = true) ->
  forallb is_record (fetched_rows rowsof m) = true.
Proof.
  intros H. induction m as [|m IH]; [done|].
  rewrite fetched_rows_S. by apply forallb_app_true.
Qed.

Lemma get_loop_rows (T : transport) (n : Z) (rowsof : nat -> list pyval) :
  (forall k rq, exists p c, T k rq = Ok p /\ first_value p = Ok (PList (rowsof k))
                            /\ get_offset_from_response p = Ok c) ->
  (forall k, rowsof k <> []) ->
  forall fuel m ot ov h log,
    length log = m ->
    (Z.to_nat n - length (fetched_rows rowsof m) <= fuel)%nat ->
    exists m' log',
      get_loop T fuel (Some n) ot ov (PList (fetched_rows rowsof m)) (mkworld h log)
        = (Ok (Some (PList (fetched_rows rowsof m'))), mkworld h log')
      /\ length log' = m' /\ (m <= m')%nat
      /\ (m' - m <= Z.to_nat n - length (fetched_rows rowsof m))%nat.
Proof.
  intros HT Hne. induction fuel as [|fuel IH]; intros m ot ov h log Hm Hfuel.
  - exists m, log. rewrite get_loop_stop; [repeat split; [done|lia|lia]|].
    destruct (py_truthy ov); [right|by left].
    eexists. split; [reflexivity|]. unfold lt_nrows.
    by destruct (Z.ltb_spec (Z.of_nat (length (fetched_rows rowsof m))) n) as [?|?];
      [lia|].
  - destruct (py_truthy ov) eqn:Htr;
      [destruct (Z.ltb_spec (Z.of_nat (length (fetched_rows rowsof m))) n) as [Hlt|Hge]|].
    + rewrite (get_loop_step T fuel n ot ov _ _ Htr Hlt).
      destruct (HT (length log) (mkreq GET None (Some (ot, ov))))
        as (p & c & Hp & Hfv & Hc).
      rewrite (bind_fetch _ _ _ _ _ _ Hp).
      rewrite (bind_lift_ok _ _ _ _ Hfv).
      unfold bind at 1. unfold lift at 1. cbn [list_extend rbind py_iter].
      rewrite (bind_lift_ok _ _ _ _ Hc), (bind_lift_ok _ _ _ _ Hc).
      rewrite Hm, <- fetched_rows_S.
      assert (0 < length (rowsof m))%nat as Hpos.
      { specialize (Hne m). destruct (rowsof m); [done|simpl; lia]. }
      destruct (IH (S m) (fst c) (snd c) h (log ++ [mkreq GET None (Some (ot, ov))]))
        as (m' & log' & Hrun & Hlen & Hle & Hbound).
      * rewrite length_app. simpl. lia.
      * rewrite fetched_rows_S, length_app. lia.
      * exists m', log'. split; [done|]. split; [done|]. split; [lia|].
        rewrite fetched_rows_S, length_app in Hbound. lia.
    + exists m, log. rewrite get_loop_stop; [repeat split; [done|lia|lia]|].
      right. eexists. split; [reflexivity|]. unfold lt_nrows.
      by destruct (Z.ltb_spec (Z.of_nat (length (fetched_rows rowsof m))) n) as [?|?];
        [lia|].
    + exists m, log. rewrite get_loop_stop; [repeat split; [done|lia|lia]|].
      by left.
Qed.

(** X10: the table is made of the pages in the order of the fetches.  In
    the GET branch, where page [k] carries the records [rowsof k] (at
    least one) under its first key, a run with row limit [n] fetches some
    number [m] of pages, between 1 and [max 1 n], and returns the first
    [n] rows of page 0 followed by page 1 and so on up to page [m - 1]. *)
Theorem run_get_rows_in_order (pf : platform) (T : transport) (fuel : nat) (l : loc)
    (w : world) (fv : pyval) (rowsof : nat -> list pyval) (n : Z) :
  w_heap w !! l = Some fv ->
  py_truthy fv = false ->
  w_log w = [] ->
  (forall k rq, exists p c, T k rq = Ok p /\ first_value p = Ok (PList (rowsof k))
                            /\ get_offset_from_response p = Ok c) ->
  (forall k, rowsof k <> [] /\ forallb is_record (rowsof k) = true) ->
  (Z.to_nat n <= fuel)%nat ->
  exists m w',
    run pf T fuel l (Some n) w
      = (Ok (Some (df_head (fetched_rows rowsof m) (Some n))), w')
    /\ length (w_log w') = m
    /\ (1 <= m <= Nat.max 1 (Z.to_nat n))%nat.
Proof.
  intros Hl Htr Hlog HT Hrows Hfuel. destruct w as [h log].
  cbn [w_heap w_log] in *. subst log.
  unfold run. rewrite (bind_deref _ _ _ _ _ Hl), Htr.
  destruct (HT 0%nat (mkreq GET None None)) as (p & c & Hp & Hfv & Hc).
  rewrite (bind_fetch T _ _ h [] p Hp).
  rewrite (bind_lift_ok _ _ _ _ Hfv).
  rewrite (bind_lift_ok _ _ _ _ Hc), (bind_lift_ok _ _ _ _ Hc).
  assert (rowsof 0%nat = fetched_rows rowsof 1) as Hr0.
  { unfold fetched_rows. simpl. by rewrite app_nil_r. }
  rewrite Hr0.
  assert (0 < length (fetched_rows rowsof 1))%nat as Hpos.
  { rewrite <- Hr0. destruct (Hrows 0%nat) as [Hne _].
    destruct (rowsof 0%nat); [done|simpl; lia]. }
  destruct (get_loop_rows T n rowsof HT (fun k => proj1 (Hrows k)) fuel 1
              (fst c) (snd c) h ([] ++ [mkreq GET None None]))
    as (m & log' & Hrun & Hlen & Hle & Hbound); [done|lia|].
  unfold bind at 1. rewrite Hrun.
  unfold finish, bind, lift, ret.
  rewrite (to_df_records _ (fetched_rows_records rowsof m (fun k => proj2 (Hrows k)))).
  exists m. eexists. split; [reflexivity|]. cbn [w_log]. split; [done|]. lia.
Qed.

Lemma run_get_rows_in_order_witness :
  exists m w',
    run utc (fun k _ => Ok (PDict [("results", PList [row (Z.of_nat k)]);
                                   ("offset", PInt 7)]))
        3 1%positive (Some 3) (world_of (PDict []))
      = (Ok (Some (df_head (fetched_rows (fun k => [row (Z.of_nat k)]) m) (Some 3))), w')
    /\ length (w_log w') = m
    /\ (1 <= m <= Nat.max 1 (Z.to_nat 3))%nat.
Proof.
  apply (run_get_rows_in_order utc
           (fun k _ => Ok (PDict [("results", PList [row (Z.of_nat k)]);
                                  ("offset", PInt 7)]))
           3 1%positive (world_of (PDict [])) (PDict [])
           (fun k => [row (Z.of_nat k)]) 3).
  - reflexivity.
  - reflexivity.
  - reflexivity.
  - intros k rq. eexists _, (PStr "offset", PInt 7). repeat split; reflexivity.
  - intros k. split; [discriminate|reflexivity].
  - simpl. lia.
Defined.

(** ** [run]: how the requests follow one another *)

Lemma chained_snoc (T : transport) (next : pyval -> option request)
    (log0 : list request) (rq0 rq : request) (p : pyval) :
  chained T next (log0 ++ [rq0]) ->
  T (length log0) rq0 = Ok p ->
  next p = Some rq ->
  chained T next ((log0 ++ [rq0]) ++ [rq]).
Proof.
  intros Hch Hp Hnext k rq' Hk.
  apply lookup_app_Some in Hk as [Hin|[Hge Hin]].
  - destruct (Hch k rq' Hin) as (r0 & p0 & H0 & Hp0 & Hn0).
    exists r0, p0. split; [by apply lookup_app_l_Some|done].
  - apply list_lookup_singleton_Some in Hin as [Hk0 <-].
    rewrite length_app in Hge, Hk0. simpl in Hge, Hk0.
    assert (k = length log0) as -> by lia.
    exists rq0, p. split; [|done].
    apply lookup_app_l_Some. by rewrite list_lookup_middle.
Qed.

Lemma chained_one (T : transport) (next : pyval -> option request) (rq : request) :
  chained T next [rq].
Proof. intros k rq' Hk. destruct k; discriminate. Qed.

Lemma get_loop_chained (T : transport) (fuel : nat) (nrows : option Z)
    (ot ov data : pyval) (w w' : world) (r : option pyval) :
  get_loop T fuel nrows ot ov data w = (Ok r, w') ->
  (exists log0 rq0 p c,
      w_log w = log0 ++ [rq0] /\ T (length log0) rq0 = Ok p
      /\ get_offset_from_response p = Ok c /\ ot = fst c /\ ov = snd c) ->
  chained T next_get (w_log w) ->
  chained T next_get (w_log w') /\ exists new, w_log w' = w_log w ++ new.
Proof.
  revert ot ov data w. induction fuel as [|fuel IH]; intros ot ov data w H Hlast Hch.
  - cbn [get_loop] in H.
    apply bind_inv_ok in H as (go & w1 & ->%get_test_inv & H).
    destruct go; apply ret_inv in H as [_ ->];
      (split; [done|exists []; by rewrite app_nil_r]).
  - cbn [get_loop] in H.
    apply bind_inv_ok in H as (go & w1 & ->%get_test_inv & H).
    destruct go;
      [|apply ret_inv in H as [_ ->]; split; [done|exists []; by rewrite app_nil_r]].
    apply bind_inv_ok in H as (p & w1 & [Hp ->]%fetch_inv & H).
    apply bind_inv_ok in H as (page & w1 & [_ ->]%lift_inv & H).
    apply bind_inv_ok in H as (fd & w1 & [_ ->]%lift_inv & H).
    apply bind_inv_ok in H as (c1 & w1 & [Hc1 ->]%lift_inv & H).
    apply bind_inv_ok in H as (c2 & w1 & [Hc2 ->]%lift_inv & H).
    destruct Hlast as (log0 & rq0 & p0 & c & Hlog & Hp0 & Hc & -> & ->).
    apply IH in H as [Hch' [new Hnew]].
    + split; [done|]. cbn [w_log] in Hnew. rewrite <- app_assoc in Hnew. eauto.
    + cbn [w_log]. exists (w_log w), (mkreq GET None (Some (fst c, snd c))), p, c1.
      rewrite Hc1 in Hc2. injection Hc2 as <-. done.
    + cbn [w_log]. rewrite Hlog in *.
      eapply chained_snoc; [done|done|].
      unfold next_get. rewrite Hc. by destruct c.
Qed.

(** X11: in the GET branch the first request carries no cursor, and every
    later request carries exactly the offset type and value that
    [get_offset_from_response] reads from the response to the request
    before it; this holds for every run that ends without an exception. *)
Theorem run_get_cursor_chain (pf : platform) (T : transport) (fuel : nat) (l : loc)
    (nrows : option Z) (w w' : world) (fv : pyval) (r : option table) :
  w_heap w !! l = Some fv ->
  py_truthy fv = false ->
  w_log w = [] ->
  run pf T fuel l nrows w = (Ok r, w') ->
  w_log w' !! 0%nat = Some (mkreq GET None None)
  /\ chained T next_get (w_log w').
Proof.
  intros Hl Htr Hlog H. destruct w as [h log]. cbn [w_heap w_log] in *. subst log.
  unfold run in H. rewrite (bind_deref _ _ _ _ _ Hl), Htr in H.
  apply bind_inv_ok in H as (p & w4 & [Hp ->]%fetch_inv & H).
  apply bind_inv_ok in H as (fd & w4 & [_ ->]%lift_inv & H).
  apply bind_inv_ok in H as (c1 & w4 & [Hc1 ->]%lift_inv & H).
  apply bind_inv_ok in H as (c2 & w4 & [Hc2 ->]%lift_inv & H).
  apply bind_inv_ok in H as (r0 & w4 & Hloop & H).
  apply finish_inv in H as [-> _].
  cbn [w_heap w_log] in *.
  apply get_loop_chained in Hloop as [Hch [new Hnew]].
  - split; [by rewrite Hnew|done].
  - exists [], (mkreq GET None None), p, c1. cbn [w_log].
    rewrite Hc1 in Hc2. injection Hc2 as <-. done.
  - apply chained_one.
Qed.

Lemma run_get_cursor_chain_witness :
  [mkreq GET None None; mkreq GET None (Some (PStr "offset", PInt 100))] !! 0%nat
    = Some (mkreq GET None None)
  /\ chained (fun _ _ => Ok page_offset) next_get
       [mkreq GET None None; mkreq GET None (Some (PStr "offset", PInt 100))].
Proof.
  apply (run_get_cursor_chain utc (fun _ _ => Ok page_offset) 3 1%positive (Some 2)
           (world_of (PDict []))
           (mkworld {[ 1%positive := PDict [] ]}
              [mkreq GET None None; mkreq GET None (Some (PStr "offset", PInt 100))])
           (PDict []) (Some [row 1; row 1])); reflexivity.
Defined.

Lemma deref_inv (l : loc) (h : heap) (log : list request) (v : pyval) (w1 : world) :
  on_heap (deref l) (mkworld h log) = (Ok v, w1) ->
  h !! l = Some v /\ w1 = mkworld h log.
Proof.
  unfold on_heap, deref. simpl. destruct (h !! l); [|discriminate].
  by intros [= -> <-].
Qed.

Lemma post_loop_chained (T : transport) (fuel : nat) (l : loc) (nrows : option Z)
    (partition data fb : pyval) (h : heap) (log : list request) (w' : world)
    (r : option pyval) :
  post_loop T fuel l nrows partition data (mkworld h log) = (Ok r, w') ->
  h !! l = Some fb ->
  (exists log0 rq0, log = log0 ++ [rq0] /\ T (length log0) rq0 = Ok partition) ->
  chained T (next_post fb) log ->
  chained T (next_post fb) (w_log w') /\ exists new, w_log w' = log ++ new.
Proof.
  revert partition data log.
  induction fuel as [|fuel IH]; intros partition data log H Hfb Hlast Hch.
  - cbn [post_loop] in H.
    apply bind_inv_ok in H as (ks & w1 & [_ ->]%lift_inv & H).
    apply bind_inv_ok in H as (go & w1 & ->%post_test_inv & H).
    destruct go; apply ret_inv in H as [_ ->];
      (split; [done|exists []; by rewrite app_nil_r]).
  - cbn [post_loop] in H.
    apply bind_inv_ok in H as (ks & w1 & [_ ->]%lift_inv & H).
    apply bind_inv_ok in H as (go & w1 & ->%post_test_inv & H).
    destruct go;
      [|apply ret_inv in H as [_ ->]; split; [done|exists []; by rewrite app_nil_r]].
    apply bind_inv_ok in H as (fb' & w1 & [Hfb' ->]%deref_inv & H).
    rewrite Hfb in Hfb'. injection Hfb' as <-.
    apply bind_inv_ok in H as (pg & w2 & [Hpg ->]%lift_inv & H).
    apply bind_inv_ok in H as (nx & w2 & [Hnx ->]%lift_inv & H).
    apply bind_inv_ok in H as (af & w2 & [Haf ->]%lift_inv & H).
    apply bind_inv_ok in H as (p & w2 & [Hp ->]%fetch_inv & H).
    apply bind_inv_ok in H as (res & w2 & [_ ->]%lift_inv & H).
    apply bind_inv_ok in H as (fd & w2 & [_ ->]%lift_inv & H).
    destruct Hlast as (log0 & rq0 & -> & Hp0).
    cbn [w_heap w_log] in *.
    apply IH in H as [Hch' [new Hnew]]; [| done | by eauto |].
    + split; [done|]. rewrite <- app_assoc in Hnew. eauto.
    + eapply chained_snoc; [done|done|].
      unfold next_post. rewrite Hpg. cbn [rbind]. rewrite Hnx. cbn [rbind].
      by rewrite Haf.
Qed.

(** X12: in the POST branch every request has the rewritten filters as its
    body; the first carries no cursor, and every later one carries as
    "after" the token under paging/next/after of the response to the
    request before it. *)
Theorem run_post_cursor_chain (pf : platform) (T : transport) (fuel : nat) (l : loc)
    (nrows : option Z) (w w' : world) (fv : pyval) (r : option table) :
  w_heap w !! l = Some fv ->
  py_truthy fv = true ->
  wf_filters fv ->
  w_log w = [] ->
  run pf T fuel l nrows w = (Ok r, w') ->
  w_log w' !! 0%nat = Some (mkreq POST (Some (map_leaves (normal_leaf pf) fv)) None)
  /\ chained T (next_post (map_leaves (normal_leaf pf) fv)) (w_log w').
Proof.
  intros Hl Htr Hwf Hlog H. destruct w as [h log]. cbn [w_heap w_log] in *. subst log.
  unfold run in H. rewrite (bind_deref _ _ _ _ _ Hl), Htr in H.
  rewrite (bind_format_filters _ _ _ _ _ _ Hl Hwf) in H.
  rewrite (bind_deref _ _ _ _ _ (lookup_insert_eq _ _ _)) in H.
  apply bind_inv_ok in H as (p & w4 & [Hp ->]%fetch_inv & H).
  apply bind_inv_ok in H as (fd & w4 & [_ ->]%lift_inv & H).
  apply bind_inv_ok in H as (r0 & w4 & Hloop & H).
  apply finish_inv in H as [-> _].
  cbn [w_heap w_log] in *.
  eapply (post_loop_chained T fuel l nrows p fd (map_leaves (normal_leaf pf) fv))
    in Hloop as [Hch [new Hnew]].
  - split; [by rewrite Hnew|done].
  - by rewrite lookup_insert_eq.
  - exists [], (mkreq POST (Some (map_leaves (normal_leaf pf) fv)) None). done.
  - apply chained_one.
Qed.

Lemma run_post_cursor_chain_witness :
  [mkreq POST (Some amount_filters) None;
   mkreq POST (Some amount_filters) (Some (PStr "after", PStr "1"))] !! 0%nat
    = Some (mkreq POST (Some (map_leaves (normal_leaf utc) amount_filters)) None)
  /\ chained (fun _ _ => Ok page_after)
       (next_post (map_leaves (normal_leaf utc) amount_filters))
       [mkreq POST (Some amount_filters) None;
        mkreq POST (Some amount_filters) (Some (PStr "after", PStr "1"))].
Proof.
  apply (run_post_cursor_chain utc (fun _ _ => Ok page_after) 3 1%positive (Some 2)
           (world_of amount_filters)
           (mkworld {[ 1%positive := amount_filters ]}
              [mkreq POST (Some amount_filters) None;
               mkreq POST (Some amount_filters) (Some (PStr "after", PStr "1"))])
           amount_filters (Some [row 1; row 1])); try reflexivity.
  compute_done.
Defined.

(** ** [Mindful.__init__]: credentials and the inferred window *)

Lemma resolve_window_errors (s e : option datetime) (n : Z) (w w' : mworld) (x : exn) :
  resolve_window s e n w = (Err x, w') ->
  w' = w /\ (x = OverflowError \/ x = ValueError).
Proof.
  unfold resolve_window, bind, now, lift, ret, raise, timedelta_days, datetime_add.
  destruct s as [s|]; [destruct e as [e|]|]; simpl;
    repeat match goal with
           | |- context [if ?b then _ else _] => destruct b; simpl
           end;
    intros [= <- <-]; auto.
Qed.

(** X13: the constructor raises [CredentialError] exactly when credentials
    come neither as an argument nor from the local configuration; the
    check precedes the dates, so that no window, valid or not, changes
    the outcome, and nothing has been sent. *)
Theorem Mindful_init_credential_error (lc cm : option credentials) (rg ext : string)
    (s e : option datetime) (n : Z) (w : mworld) :
  (exists w', Mindful_init lc cm rg s e n ext w = (Err CredentialError, w'))
  <-> (lc = None /\ cm = None).
Proof.
  split.
  - intros [w' H]. unfold Mindful_init, bind, ret, raise in H.
    destruct cm as [c|]; [|destruct lc as [c|]; [|done]];
      destruct (resolve_window s e n w) as [[win|x] w1] eqn:Hr; try discriminate;
      injection H as -> _;
      destruct (resolve_window_errors _ _ _ _ _ _ Hr) as [_ [?|?]]; discriminate.
  - intros [-> ->]. by exists w.
Qed.

(** X14: what a constructed object holds.  Credentials passed as an
    argument are used before those of the local configuration; the header
    is "Bearer " followed by the VAULT entry, or by the text "None" when
    the credentials have no such entry; the region "us1" gives an empty
    host prefix and any other region its name and a dot; the file
    extension is stored as given. *)
Theorem Mindful_init_fields (lc cm : option credentials) (rg ext : string)
    (s e : option datetime) (n : Z) (w w' : mworld) (obj : Mindful) :
  Mindful_init lc cm rg s e n ext w = (Ok obj, w') ->
  exists c,
    (cm = Some c \/ (cm = None /\ lc = Some c))
    /\ credentials_mindful obj = c
    /\ header obj = ("Bearer " ++ match dict_get "VAULT" c with
                                  | Some v => v
                                  | None => "None"
                                  end)%string
    /\ region obj = (if String.eqb rg "us1" then "" else rg ++ ".")%string
    /\ file_extension obj = ext
    /\ resolve_window s e n w = (Ok (start_date obj, end_date obj), w').
Proof.
  unfold Mindful_init, bind, ret, raise. intros H.
  destruct cm as [c|]; [|destruct lc as [c|]; [|discriminate]];
    destruct (resolve_window s e n w) as [[[a b]|x] w1] eqn:Hr; try discriminate;
    injection H as <- <-; exists c; simpl; repeat split; auto.
Qed.

Lemma Mindful_init_fields_witness :
  exists c,
    (Some [("USER", "u")] = Some c \/ (Some [("USER", "u")] = None /\ Some creds0 = Some c))
    /\ credentials_mindful (mkMindful [("USER", "u")] "" t0 (t0 + us_per_day) "xls"
                              "Bearer None") = c
    /\ header (mkMindful [("USER", "u")] "" t0 (t0 + us_per_day) "xls" "Bearer None")
       = ("Bearer " ++ match dict_get "VAULT" c with Some v => v | None => "None" end)%string
    /\ region (mkMindful [("USER", "u")] "" t0 (t0 + us_per_day) "xls" "Bearer None")
       = (if String.eqb "us1" "us1" then "" else "us1" ++ ".")%string
    /\ file_extension (mkMindful [("USER", "u")] "" t0 (t0 + us_per_day) "xls"
                         "Bearer None") = "xls"
    /\ resolve_window None None 1 mw0
       = (Ok (start_date (mkMindful [("USER", "u")] "" t0 (t0 + us_per_day) "xls"
                            "Bearer None"),
              end_date (mkMindful [("USER", "u")] "" t0 (t0 + us_per_day) "xls"
                          "Bearer None")), mw0).
Proof.
  apply (Mindful_init_fields (Some creds0) (Some [("USER", "u")]) "us1" "xls"
           None None 1 mw0 mw0).
  reflexivity.
Defined.

(** X15: the inferred window.  When [start_date] or [end_date] is not a
    datetime, the window starts at [start_date], or at the current time
    when that is missing too (an [end_date] given without a start is
    ignored), and ends [date_interval] days later; if [date_interval] or
    the end leaves the range of [timedelta] or [datetime], the constructor
    raises [OverflowError] and clamps nothing. *)
Theorem resolve_window_inferred (s e : option datetime) (n : Z) (w : mworld) :
  s = None \/ e = None ->
  let a := match s with Some t => t | None => clock w end in
  resolve_window s e n w
  = (if (-999999999 <=? n) && (n <=? 999999999)
        && (0 <=? a + n * us_per_day) && (a + n * us_per_day <=? datetime_max)
     then Ok (a, a + n * us_per_day)
     else Err OverflowError, w).
Proof.
  intros Hse a. subst a.
  unfold resolve_window, bind, now, lift, ret, raise, timedelta_days, datetime_add.
  destruct s as [s|]; [destruct e as [e|]; [by destruct Hse|]|]; simpl;
    destruct ((-999999999 <=? n) && (n <=? 999999999)); simpl; try done;
    by destruct ((0 <=? _ + n * us_per_day) && (_ + n * us_per_day <=? datetime_max)).
Qed.

Lemma resolve_window_inferred_witness :
  resolve_window None (Some 5) 3 mw0
  = (if (-999999999 <=? 3) && (3 <=? 999999999)
        && (0 <=? clock mw0 + 3 * us_per_day) && (clock mw0 + 3 * us_per_day <=? datetime_max)
     then Ok (clock mw0, clock mw0 + 3 * us_per_day)
     else Err OverflowError, mw0).
Proof.
  apply (resolve_window_inferred None (Some 5) 3 mw0). by left.
Defined.

(** X16: with a positive [date_interval] every window that the
    constructor accepts, inferred or given, has its start strictly before
    its end, and accepting it sends nothing. *)
Theorem resolve_window_strict (s e : option datetime) (n : Z) (w w' : mworld)
    (a b : datetime) :
  0 < n ->
  resolve_window s e n w = (Ok (a, b), w') ->
  a < b /\ w' = w.
Proof.
  intros Hn H.
  destruct s as [s|]; [destruct e as [e|]|].
  - unfold resolve_window, raise, ret in H.
    destruct (Z.geb_spec s e) as [?|Hlt]; [discriminate|].
    injection H as <- <- <-. split; [lia|done].
  - rewrite (resolve_window_inferred (Some s) None n w) in H by (by right).
    simpl in H.
    destruct ((-999999999 <=? n) && (n <=? 999999999) && (0 <=? s + n * us_per_day)
              && (s + n * us_per_day <=? datetime_max)); [|discriminate].
    injection H as <- <- <-. unfold us_per_day. split; [lia|done].
  - rewrite (resolve_window_inferred None e n w) in H by (by left).
    simpl in H.
    destruct ((-999999999 <=? n) && (n <=? 999999999) && (0 <=? clock w + n * us_per_day)
              && (clock w + n * us_per_day <=? datetime_max)); [|discriminate].
    injection H as <- <- <-. unfold us_per_day. split; [lia|done].
Qed.

Lemma resolve_window_strict_witness :
  t0 < t0 + us_per_day /\ mw0 = mw0.
Proof.
  apply (resolve_window_strict None None 1 mw0 mw0 t0 (t0 + us_per_day)).
  - lia.
  - reflexivity.
Defined.

(** ** The request methods of [Mindful] and [response_to_file] *)

Section MindfulMethodsFacts.

Variable frame : Type.
Variable read_json : string -> result frame.
Variable api : nat -> api_call -> result response.

Lemma get_list_spec (name : string) (limit : Z) (s : session frame) :
  (set_endpoint frame name ;;;
   endpoint <- get_endpoint frame ;;
   response <- _mindful_api_response frame api limit endpoint ;;
   if status_code response =? 200
   then logger frame INFO ;;; ret response
   else logger frame ERROR ;;; raise APIError) s
  = let c := mkcall ("https://" ++ region (self frame s) ++ "surveydynamix.com/api/"
                     ++ name)%string
                    limit (start_date (self frame s)) (end_date (self frame s))
                    (header (self frame s)) in
    match api (length (calls frame s)) c with
    | Ok resp =>
        if status_code resp =? 200
        then (Ok resp,
              mksession frame (self frame s) (Some name) (self_file_name frame s)
                (calls frame s ++ [c]) (logged frame s ++ [INFO]) (files frame s))
        else (Err APIError,
              mksession frame (self frame s) (Some name) (self_file_name frame s)
                (calls frame s ++ [c]) (logged frame s ++ [ERROR]) (files frame s))
    | Err e =>
        (Err e,
         mksession frame (self frame s) (Some name) (self_file_name frame s)
           (calls frame s ++ [c]) (logged frame s) (files frame s))
    end.
Proof.
  unfold bind, set_endpoint, get_endpoint, _mindful_api_response, logger, ret, raise.
  simpl. destruct (api _ _) as [resp|e]; [|done].
  by destruct (status_code resp =? 200).
Qed.

(** X17: [get_interactions_list] and [get_responses_list] send exactly one
    request each, to the endpoint "interactions" or "responses" under the
    host of the region, with the given limit and the window and header of
    the object; they remember the endpoint whatever the outcome, write no
    file, and return a response only when its status code is 200. *)
Theorem get_lists_one_request (limit : Z) (s s' : session frame)
    (r : result response) (name : string) :
  (name = "interactions" /\ get_interactions_list frame api limit s = (r, s'))
  \/ (name = "responses" /\ get_responses_list frame api limit s = (r, s')) ->
  exists c,
    calls frame s' = calls frame s ++ [c]
    /\ c = mkcall ("https://" ++ region (self frame s) ++ "surveydynamix.com/api/"
                   ++ name)%string
                  limit (start_date (self frame s)) (end_date (self frame s))
                  (header (self frame s))
    /\ self_endpoint frame s' = Some name
    /\ self frame s' = self frame s
    /\ files frame s' = files frame s
    /\ (forall resp, r = Ok resp ->
          status_code resp = 200 /\ api (length (calls frame s)) c = Ok resp)
    /\ (forall resp, api (length (calls frame s)) c = Ok resp ->
          status_code resp <> 200 -> r = Err APIError).
Proof.
  intros H.
  assert ((set_endpoint frame name ;;;
           endpoint <- get_endpoint frame ;;
           response <- _mindful_api_response frame api limit endpoint ;;
           if status_code response =? 200
           then logger frame INFO ;;; ret response
           else logger frame ERROR ;;; raise APIError) s = (r, s')) as H'.
  { by destruct H as [[-> H]|[-> H]]. }
  clear H. rewrite get_list_spec in H'. cbv zeta in H'.
  set (c := mkcall ("https://" ++ region (self frame s) ++ "surveydynamix.com/api/"
                    ++ name)%string
                   limit (start_date (self frame s)) (end_date (self frame s))
                   (header (self frame s))) in *.
  exists c.
  destruct (api (length (calls frame s)) c) as [resp|e] eqn:Hapi;
    [destruct (Z.eqb_spec (status_code resp) 200) as [Hst|Hst]|];
    injection H' as <- <-; simpl;
    (split; [done|]); (split; [done|]); (split; [done|]); (split; [done|]);
    (split; [done|]); split.
  - by intros resp' [= <-].
  - intros resp' [= <-] Hne. done.
  - intros resp' [=].
  - done.
  - intros resp' [=].
  - intros resp' [=].
Qed.

End MindfulMethodsFacts.

Lemma get_lists_one_request_witness :
  let s := new_session string obj0 in
  let out := get_responses_list string api_ok 10 s in
  exists c,
    calls string (snd out) = calls string s ++ [c]
    /\ c = mkcall ("https://" ++ region (self string s) ++ "surveydynamix.com/api/"
                   ++ "responses")%string
                  10 (start_date (self string s)) (end_date (self string s))
                  (header (self string s))
    /\ self_endpoint string (snd out) = Some "responses"
    /\ self string (snd out) = self string s
    /\ files string (snd out) = files string s
    /\ (forall resp, fst out = Ok resp ->
          status_code resp = 200 /\ api_ok (length (calls string s)) c = Ok resp)
    /\ (forall resp, api_ok (length (calls string s)) c = Ok resp ->
          status_code resp <> 200 -> fst out = Err APIError).
Proof.
  intros s out.
  apply (get_lists_one_request string api_ok 10 s (snd out) (fst out) "responses").
  right. split; reflexivity.
Defined.

(** X18: saving what was just fetched.  After a successful
    [get_interactions_list], [response_to_file] called without a file name
    on an object whose extension is "csv" or "parquet" writes exactly one
    file, in that format, named after the endpoint: "interactions.csv" or
    "interactions.parquet" joined to [file_path]; it sends no request. *)
Theorem response_to_file_after_get (frame : Type) (read_json : string -> result frame)
    (api : nat -> api_call -> result response) (limit : Z) (s s1 : session frame)
    (resp : response) (df : frame) (path : string) :
  get_interactions_list frame api limit s = (Ok resp, s1) ->
  read_json (content resp) = Ok df ->
  file_extension (self frame s) = "csv" \/ file_extension (self frame s) = "parquet" ->
  exists s2,
    response_to_file frame read_json resp None path s1 = (Ok tt, s2)
    /\ files frame s2
       = files frame s
         ++ [(path_join path ("interactions." ++ file_extension (self frame s))%string,
              if String.eqb (file_extension (self frame s)) "csv" then CSV else PARQUET,
              df)]
    /\ self_file_name frame s2
       = Some (path_join path ("interactions." ++ file_extension (self frame s))%string)
    /\ calls frame s2 = calls frame s1.
Proof.
  intros Hget Hread Hext.
  destruct (get_lists_one_request frame api limit s s1 (Ok resp) "interactions")
    as (c & Hcalls & _ & Hep & Hself & Hfiles & _); [by left; split|].
  unfold response_to_file.
  rewrite (bind_lift_ok _ _ _ _ Hread).
  unfold bind at 1. unfold get at 1. cbn [no_name].
  unfold bind at 1. unfold bind at 1. unfold get_endpoint at 1. rewrite Hep.
  unfold set_file_name at 1. cbn [self self_endpoint self_file_name calls logged files].
  rewrite Hself.
  destruct Hext as [Hext|Hext]; rewrite Hext; simpl;
    unfold bind, get_file_name, write_file; simpl;
    eexists; (split; [reflexivity|]); simpl; by rewrite Hfiles.
Qed.

Lemma response_to_file_after_get_witness :
  let s := new_session string obj0 in
  let s1 := snd (get_interactions_list string api_ok 10 s) in
  exists s2,
    response_to_file string read_any (mkresponse 200 "[]") None "out" s1 = (Ok tt, s2)
    /\ files string s2
       = files string s
         ++ [(path_join "out" ("interactions." ++ file_extension (self string s))%string,
              if String.eqb (file_extension (self string s)) "csv" then CSV else PARQUET,
              "[]")]
    /\ self_file_name string s2
       = Some (path_join "out" ("interactions." ++ file_extension (self string s))%string)
    /\ calls string s2 = calls string s1.
Proof.
  intros s s1.
  apply (response_to_file_after_get string read_any api_ok 10 s s1
           (mkresponse 200 "[]") "[]" "out").
  - reflexivity.
  - reflexivity.
  - by left.
Defined.

(** X19: [self.endpoint] is assigned by the two request methods only.  On
    an object that has made no request, [response_to_file] without a file
    name (or with an empty one) raises [AttributeError] once the content
    has been read, and writes nothing. *)
Theorem response_to_file_before_get (frame : Type) (read_json : string -> result frame)
    (obj : Mindful) (resp : response) (df : frame) (file_name : option string)
    (path : string) :
  read_json (content resp) = Ok df ->
  no_name file_name = true ->
  response_to_file frame read_json resp file_name path (new_session frame obj)
  = (Err AttributeError, new_session frame obj).
Proof.
  intros Hread Hno. unfold response_to_file.
  rewrite (bind_lift_ok _ _ _ _ Hread). by rewrite Hno.
Qed.

Lemma response_to_file_before_get_witness :
  response_to_file string read_any (mkresponse 200 "[]") (Some "") "out"
    (new_session string obj0)
  = (Err AttributeError, new_session string obj0).
Proof.
  apply (response_to_file_before_get string read_any obj0 (mkresponse 200 "[]") "[]"
           (Some "") "out"); reflexivity.
Defined.

(** X20: a file extension other than "csv" and "parquet" is not refused by
    the constructor; [response_to_file] then still computes and stores the
    file name, writes no file and logs one warning. *)
Theorem response_to_file_unsupported (frame : Type) (read_json : string -> result frame)
    (s : session frame) (resp : response) (df : frame) (f path : string) :
  read_json (content resp) = Ok df ->
  f <> "" ->
  file_extension (self frame s) <> "csv" ->
  file_extension (self frame s) <> "parquet" ->
  response_to_file frame read_json resp (Some f) path s
  = (Ok tt,
     mksession frame (self frame s) (self_endpoint frame s)
       (Some (path_join path (f ++ "." ++ file_extension (self frame s))%string))
       (calls frame s) (logged frame s ++ [WARNING]) (files frame s)).
Proof.
  intros Hread Hf Hcsv Hpq. unfold response_to_file.
  rewrite (bind_lift_ok _ _ _ _ Hread).
  unfold bind at 1. unfold get at 1. cbn [no_name].
  destruct (String.eqb_spec f "") as [?|_]; [done|].
  unfold bind, set_file_name. cbn [self].
  destruct (String.eqb_spec (file_extension (self frame s)) "csv") as [?|_]; [done|].
  destruct (String.eqb_spec (file_extension (self frame s)) "parquet") as [?|_]; [done|].
  reflexivity.
Qed.

Lemma response_to_file_unsupported_witness :
  let s := new_session string (mkMindful creds0 "" t0 (t0 + us_per_day) "xlsx"
                                 "Bearer token") in
  response_to_file string read_any (mkresponse 200 "[]") (Some "survey") "out/" s
  = (Ok tt,
     mksession string (self string s) (self_endpoint string s)
       (Some (path_join "out/" ("survey" ++ "." ++ file_extension (self string s))%string))
       (calls string s) (logged string s ++ [WARNING]) (files string s)).
Proof.
  intros s.
  apply (response_to_file_unsupported string read_any s (mkresponse 200 "[]") "[]"
           "survey" "out/"); [reflexivity|discriminate..].
Defined.
